(** * Icon registry and feedback pipeline of the unified API (src/app.js)

  A shallow embedding of the in-memory icon registry ([activeIcons]) and
  its admin handlers, and of the feedback endpoints with their calls to the
  media uploader (Cloudinary) and to the record store (Google Sheets).

  Strings are modelled with [String.string] over ASCII characters; JS
  [trim], [toLowerCase] and the [\s] regex class are modelled on that
  alphabet.  Timestamps ([new Date()]) are natural numbers supplied by the
  caller of each handler. *)

From Stdlib Require Import String Ascii List Bool Arith NArith Lia.
Import ListNotations.
Open Scope string_scope.
Open Scope list_scope.

(* ================================================================= *)
(** ** JS objects used as maps *)

Module JsObject.

(** A JS object's own enumerable properties, in [Object.keys] order.
    Properties are appended at the end when created and updated in
    place otherwise.  (JS enumerates array-index-like keys such as "7"
    before the others; that reordering is not modelled, and statements
    about listing order exclude such keys, see [is_array_index].) *)
Definition t (V : Type) := list (string * V).

Fixpoint get_own {V} (k : string) (o : t V) : option V :=
  match o with
  | [] => None
  | (k', v) :: o' => if String.eqb k k' then Some v else get_own k o'
  end.

(** [o[k] = f(o[k])] on an existing own property (first, and only, match). *)
Fixpoint update {V} (k : string) (f : V -> V) (o : t V) : t V :=
  match o with
  | [] => []
  | (k', v) :: o' =>
      if String.eqb k k' then (k', f v) :: o' else (k', v) :: update k f o'
  end.

Definition keys {V} (o : t V) : list string := map fst o.

Definition is_digit (c : ascii) : bool :=
  ((48 <=? nat_of_ascii c) && (nat_of_ascii c <=? 57))%nat.

Fixpoint digits_value (s : string) (acc : N) : N :=
  match s with
  | EmptyString => acc
  | String c s' => digits_value s' (acc * 10 + N.of_nat (nat_of_ascii c - 48))%N
  end.

(** Array-index property names: canonical decimal numerals below
    2^32 - 1 ("0", "7", "42"; not "07" or "-1").  [Object.keys] lists
    them first, in numeric order, before every other name. *)
Definition is_array_index (k : string) : bool :=
  match k with
  | EmptyString => false
  | String c rest =>
      forallb is_digit (list_ascii_of_string k) &&
      (negb (Ascii.eqb c "0") || String.eqb rest "") &&
      (digits_value k 0 <? 4294967295)%N
  end.

(** The property names every plain object inherits from
    [Object.prototype]; each of them holds a truthy value (a function,
    or the prototype object itself for [__proto__]). *)
Definition object_prototype_keys : list string :=
  [ "constructor"; "__defineGetter__"; "__defineSetter__";
    "hasOwnProperty"; "__lookupGetter__"; "__lookupSetter__";
    "isPrototypeOf"; "propertyIsEnumerable"; "toString"; "valueOf";
    "__proto__"; "toLocaleString" ].

Definition is_inherited (k : string) : bool :=
  existsb (String.eqb k) object_prototype_keys.

(** The result of the property read [o[k]]. *)
Inductive prop {V} :=
| Own (v : V)
| Inherited
| Undefined.
Arguments prop : clear implicits.

Definition get {V} (k : string) (o : t V) : prop V :=
  match get_own k o with
  | Some v => Own v
  | None => if is_inherited k then Inherited else Undefined
  end.

(** Truthiness of [o[k]]: own icon records are objects, inherited
    members are functions or objects. *)
Definition truthy {V} (p : prop V) : bool :=
  match p with Own _ | Inherited => true | Undefined => false end.

End JsObject.

(* ================================================================= *)
(** ** Icon registry *)

Module Icons.
Import JsObject.

Record IconRecord := mkIcon {
  name : string;
  url : string;
  isActive : bool;
  lastUpdated : nat
}.

Definition Registry := JsObject.t IconRecord.

Definition set_active (b : bool) (r : IconRecord) : IconRecord :=
  mkIcon (name r) (url r) b (lastUpdated r).

Definition set_lastUpdated (d : nat) (r : IconRecord) : IconRecord :=
  mkIcon (name r) (url r) (isActive r) d.

(** [let activeIcons = { DEFAULT: ..., navratri1: ..., navratri3: ... }],
    every [lastUpdated] being the process start time [t0]. *)
Definition activeIcons_init (t0 : nat) : Registry :=
  [ ("DEFAULT",   mkIcon "Default"    "/uploads/icons/default.png"   true  t0);
    ("navratri1", mkIcon "Navratri 1" "/uploads/icons/navratri1.png" false t0);
    ("navratri3", mkIcon "Navratri 3" "/uploads/icons/navratri3.png" false t0) ].

(** GET /api/app/current-icon:
    [Object.keys(activeIcons).find(key => activeIcons[key].isActive)]. *)
Inductive CurrentIconResp :=
| CurrentIcon (iconName displayName url : string) (lastUpdated : nat)
| NoActiveIcon.

Definition current_icon (host : string) (reg : Registry) : CurrentIconResp :=
  match find (fun kv => isActive (snd kv)) reg with
  | Some (k, r) => CurrentIcon k (name r) (host ++ url r) (lastUpdated r)
  | None => NoActiveIcon
  end.

(** GET /api/admin/icons. *)
Record IconView := mkView {
  v_iconName : string;
  v_displayName : string;
  v_url : string;
  v_isActive : bool;
  v_lastUpdated : nat
}.

Definition list_icons (host : string) (reg : Registry) : list IconView :=
  map (fun kv => let '(k, r) := kv in
                 mkView k (name r) (host ++ url r) (isActive r) (lastUpdated r))
      reg.

(** [Object.keys(activeIcons).forEach(key => { activeIcons[key].isActive = false; })] *)
Definition deactivate_all (reg : Registry) : Registry :=
  map (fun kv => (fst kv, set_active false (snd kv))) reg.

(** Responses of the two admin mutations. *)
Inductive AdminResp :=
| AdminOk (iconName : string) (data : option (string * string))
| AdminBadRequest (message : string).

(** POST /api/admin/icons/activate.  [iconName] is the body field; the
    empty string stands for a missing or falsy field.  When [iconName]
    names an inherited member of [Object.prototype], the final two
    assignments land on that member, outside the registry's own
    entries, and the response's display name and url are that member's
    properties (not tracked: [None]). *)
Definition activate (iconName : string) (now : nat) (reg : Registry)
  : AdminResp * Registry :=
  if String.eqb iconName "" then (AdminBadRequest "iconName is required", reg)
  else if negb (truthy (get iconName reg)) then
    (AdminBadRequest ("Invalid icon name '" ++ iconName ++ "'"), reg)
  else
    (* Deactivate all icons *)
    let reg1 := deactivate_all reg in
    (* Activate selected icon *)
    match get iconName reg1 with
    | Own _ =>
        let reg2 := update iconName
                      (fun r => set_lastUpdated now (set_active true r)) reg1 in
        match get_own iconName reg2 with
        | Some r => (AdminOk iconName (Some (name r, url r)), reg2)
        | None => (AdminOk iconName None, reg2)
        end
    | _ => (AdminOk iconName None, reg1)
    end.

(** POST /api/admin/icons/add. *)
Definition add (iconName displayName iconUrl : string) (now : nat)
  (reg : Registry) : AdminResp * Registry :=
  if String.eqb iconName "" || String.eqb displayName "" || String.eqb iconUrl ""
  then (AdminBadRequest "iconName, displayName, and iconUrl are required", reg)
  else if truthy (get iconName reg) then
    (AdminBadRequest ("Icon '" ++ iconName ++ "' already exists"), reg)
  else
    (AdminOk iconName (Some (displayName, iconUrl)),
     reg ++ [(iconName, mkIcon displayName iconUrl false now)]).

(** A sequence of admin requests, each with the time it is served at. *)
Inductive AdminOp :=
| OpAdd (iconName displayName iconUrl : string)
| OpActivate (iconName : string).

Definition step (op : AdminOp) (now : nat) (reg : Registry) : Registry :=
  match op with
  | OpAdd k d u => snd (add k d u now reg)
  | OpActivate k => snd (activate k now reg)
  end.

Fixpoint run (ops : list (AdminOp * nat)) (reg : Registry) : Registry :=
  match ops with
  | [] => reg
  | (op, now) :: ops' => run ops' (step op now reg)
  end.

Definition count_active (reg : Registry) : nat :=
  length (filter (fun kv => isActive (snd kv)) reg).

(** An admin request that does not name a member of [Object.prototype]
    in an activation. *)
Definition plain_op (op : AdminOp) : bool :=
  match op with
  | OpActivate k => negb (is_inherited k)
  | OpAdd _ _ _ => true
  end.

End Icons.

(* ================================================================= *)
(** ** Strings as the handlers treat them *)

Module JsString.

(** The ASCII members of JS's whitespace class (used by [trim] and by
    the [\s] regex class): tab, LF, VT, FF, CR and space. *)
Definition is_ws (c : ascii) : bool :=
  let n := nat_of_ascii c in
  ((9 <=? n)%nat && (n <=? 13)%nat) || (n =? 32)%nat.

Fixpoint trim_start (s : string) : string :=
  match s with
  | EmptyString => EmptyString
  | String c s' => if is_ws c then trim_start s' else s
  end.

Fixpoint rev_string (s : string) (acc : string) : string :=
  match s with
  | EmptyString => acc
  | String c s' => rev_string s' (String c acc)
  end.

(** [s.trim()]. *)
Definition trim (s : string) : string :=
  rev_string (trim_start (rev_string (trim_start s) EmptyString)) EmptyString.

Definition lower_char (c : ascii) : ascii :=
  let n := nat_of_ascii c in
  if (65 <=? n)%nat && (n <=? 90)%nat then ascii_of_nat (n + 32)%nat else c.

(** [s.toLowerCase()] on ASCII text: A-Z become a-z.  (On other
    characters JS applies the Unicode case mappings, not modelled here;
    see [ascii_text].) *)
Fixpoint toLowerCase (s : string) : string :=
  match s with
  | EmptyString => EmptyString
  | String c s' => String (lower_char c) (toLowerCase s')
  end.

(** [s.replace(/\s+/g, '_')]: every maximal whitespace run becomes one
    underscore; [in_run] records that the previous character was
    whitespace. *)
Fixpoint replace_ws_runs (s : string) (in_run : bool) : string :=
  match s with
  | EmptyString => EmptyString
  | String c s' =>
      if is_ws c then
        if in_run then replace_ws_runs s' true
        else String "_" (replace_ws_runs s' true)
      else String c (replace_ws_runs s' false)
  end.

(** Text made of 7-bit ASCII characters only: the alphabet on which
    [trim], [toLowerCase] and the [\s] class above are exact. *)
Definition ascii_text (s : string) : bool :=
  forallb (fun c => (nat_of_ascii c <? 128)%nat) (list_ascii_of_string s).

(** [a || b] on a string value [a]. *)
Definition or_else (a b : string) : string := if String.eqb a "" then b else a.

(** [a || b] on an optional field ([undefined] is falsy). *)
Definition opt_or_else (a : option string) (b : string) : string :=
  match a with Some s => or_else s b | None => b end.

(** [!a || a.trim() === ''] *)
Definition blank (a : option string) : bool :=
  match a with
  | None => true
  | Some s => String.eqb s "" || String.eqb (trim s) ""
  end.

End JsString.

(* ================================================================= *)
(** ** Feedback pipeline: world, effects and the external services *)

Module Feedback.
Import JsString.

Record Attachment := mkAttachment {
  buffer : list Byte.byte;
  originalname : string
}.

(** What Cloudinary's [upload_stream] callback receives on success. *)
Record CloudResult := mkCloud {
  secure_url : string;
  c_public_id : string;
  c_width : nat;
  c_height : nat;
  c_bytes : nat
}.

(** The object [uploadToCloudinary] resolves with. *)
Record UploadResult := mkUpload {
  u_url : string;
  public_id : string;
  original_name : string;
  width : nat;
  height : nat;
  bytes : nat
}.

Definition upload_result_of (r : CloudResult) (originalname : string) : UploadResult :=
  mkUpload (secure_url r) (c_public_id r) originalname
           (c_width r) (c_height r) (c_bytes r).

(** The environment the handlers run in.  [cloud n buf] is the outcome of
    the [n]-th call to Cloudinary's uploader (it is also where the
    configuration read at start-up, the random [public_id] and the
    network come in): [inl error] or [inr result].  [sheets_ok] says
    whether [getGoogleSheetsInstance] succeeds (credentials file present,
    token obtained).  [now_iso] and [now_ymd] are [moment()] rendered by
    [toISOString()] and [format('YYYY-MM-DD')]. *)
Record Env := mkEnv {
  cloud : nat -> list Byte.byte -> string + CloudResult;
  sheets_ok : bool;
  now_iso : string;
  now_ymd : string
}.

(** Console output the pipeline's error paths produce. *)
Inductive LogEntry :=
| LogUploadFailed (originalname error : string)
| LogError (context error : string).

(** The mutable world: the spreadsheet's cells ([Sheet1], row by row),
    the number of writes made to its header range, the number of calls
    made to the uploader, and the error log. *)
Record World := mkWorld {
  sheet : list (list string);
  header_writes : nat;
  upload_calls : nat;
  logs : list LogEntry
}.

(** A state monad with JS-style exceptions: a thrown error keeps the
    effects performed before it. *)
Inductive Exn (A : Type) :=
| Ok (a : A)
| Throw (e : string).
Arguments Ok {A} a.
Arguments Throw {A} e.

Definition M (A : Type) := Env -> World -> Exn A * World.

Definition ret {A} (a : A) : M A := fun _ w => (Ok a, w).
Definition throw {A} (e : string) : M A := fun _ w => (Throw e, w).
Definition bind {A B} (m : M A) (k : A -> M B) : M B :=
  fun env w =>
    match m env w with
    | (Ok a, w') => k a env w'
    | (Throw e, w') => (Throw e, w')
    end.
Definition try_catch {A} (m : M A) (h : string -> M A) : M A :=
  fun env w =>
    match m env w with
    | (Ok a, w') => (Ok a, w')
    | (Throw e, w') => h e env w'
    end.
Definition ask : M Env := fun env w => (Ok env, w).
Definition get : M World := fun _ w => (Ok w, w).
Definition put (w : World) : M unit := fun _ _ => (Ok tt, w).

Notation "x <- m ;; k" := (bind m (fun x => k))
  (at level 61, m at next level, right associativity).
Notation "m ;;; k" := (bind m (fun _ => k))
  (at level 61, right associativity).

Definition log (e : LogEntry) : M unit :=
  w <- get ;;
  put (mkWorld (sheet w) (header_writes w) (upload_calls w) (logs w ++ [e])).

(** [uploadToCloudinary(buffer, originalname)]. *)
Definition uploadToCloudinary (buf : list Byte.byte) (originalname : string)
  : M UploadResult :=
  env <- ask ;;
  w <- get ;;
  put (mkWorld (sheet w) (header_writes w) (S (upload_calls w)) (logs w)) ;;;
  match cloud env (upload_calls w) buf with
  | inl error => throw error
  | inr result => ret (upload_result_of result originalname)
  end.

(** [getGoogleSheetsInstance()]. *)
Definition getGoogleSheetsInstance : M unit :=
  env <- ask ;;
  if sheets_ok env then ret tt
  else throw "Google credentials file (a.json) not found".

Fixpoint drop_trailing_empty_rev (r : list string) : list string :=
  match r with
  | "" :: r' => drop_trailing_empty_rev r'
  | _ => r
  end.

(** A row as the Sheets API returns it: trailing empty cells omitted. *)
Definition trim_row (r : list string) : list string :=
  rev (drop_trailing_empty_rev (rev r)).

(** [values.get] of [Sheet1!A1:G1]: the [values] field, absent when the
    range holds no non-empty cell. *)
Definition values_get_header (rows : list (list string))
  : option (list (list string)) :=
  match rows with
  | [] => None
  | r :: _ =>
      match trim_row (firstn 7 r) with
      | [] => None
      | h => Some [h]
      end
  end.

(** [values.update] of [Sheet1!A1:G1] with one row. *)
Definition update_header (hdr : list string) (rows : list (list string))
  : list (list string) :=
  match rows with
  | [] => [hdr]
  | r :: rs => (hdr ++ skipn 7 r) :: rs
  end.

Definition sheet_headers : list string :=
  [ "Title"; "Description"; "Photos"; "User ID"; "Email ID"; "Date";
    "TimeStamp" ].

(** [initializeSheetHeaders()]. *)
Definition initializeSheetHeaders : M unit :=
  try_catch
    (getGoogleSheetsInstance ;;;
     w <- get ;;
     match values_get_header (sheet w) with
     | None | Some [] =>
         put (mkWorld (update_header sheet_headers (sheet w))
                      (S (header_writes w)) (upload_calls w) (logs w))
     | Some _ => ret tt
     end)
    (fun error => log (LogError "Error initializing sheet headers" error)).

Record FeedbackData := mkFeedbackData {
  f_title : string;
  f_description : string;
  photos : string;
  userId : string;
  emailId : string;
  date : string;
  timestamp : string
}.

(** The row a submission appends, as [appendToSheet] lays it out. *)
Definition sheet_row (d : FeedbackData) : list string :=
  [ or_else (f_title d) ""; or_else (f_description d) "";
    or_else (photos d) ""; or_else (userId d) "";
    or_else (emailId d) ""; or_else (date d) "";
    or_else (timestamp d) "" ].

(** [appendToSheet(feedbackData)]: one 7-cell row appended to the table. *)
Definition appendToSheet (d : FeedbackData) : M unit :=
  try_catch
    (getGoogleSheetsInstance ;;;
     w <- get ;;
     put (mkWorld (sheet w ++ [sheet_row d]) (header_writes w) (upload_calls w) (logs w)))
    (fun error =>
       log (LogError "Error appending to sheet" error) ;;; throw error).

(** The fields of the multipart body the handler reads ([None] for an
    absent field) and [req.files], the attachments multer accepted. *)
Record FeedbackReq := mkReq {
  r_title : option string;
  r_description : option string;
  r_userId : option string;
  r_emailId : option string;
  customDate : option string;
  customTimestamp : option string;
  files : list Attachment
}.

Record SubmissionData := mkSubmission {
  s_id : string;
  submittedAt : string;
  photosUploaded : nat;
  photosAttempted : nat;
  s_title : string;
  s_description : string;
  photoUrls : list string;
  photoDetails : list UploadResult
}.

Inductive FeedbackResp :=
| Created (data : SubmissionData)                 (* 201 *)
| BadRequest (error : string)                     (* 400 *)
| ServerError (error message : string).           (* 500 *)

(** The body of the upload [for] loop: each file in its own
    [try { ... } catch (fileError) { console.error(...) }]. *)
Fixpoint upload_loop (fs : list Attachment)
  (cloudinaryUrls : list string) (photoDetails : list UploadResult)
  : M (list string * list UploadResult) :=
  match fs with
  | [] => ret (cloudinaryUrls, photoDetails)
  | file :: fs' =>
      acc <- try_catch
               (uploadResult <- uploadToCloudinary (buffer file) (originalname file) ;;
                ret (cloudinaryUrls ++ [u_url uploadResult],
                     photoDetails ++ [uploadResult]))
               (fun fileError =>
                  log (LogUploadFailed (originalname file) fileError) ;;;
                  ret (cloudinaryUrls, photoDetails)) ;;
      upload_loop fs' (fst acc) (snd acc)
  end.

Definition trim_or_empty (a : option string) : string :=
  match a with Some s => or_else (trim s) "" | None => "" end.

(** POST /api/feedback (after multer has accepted the files). *)
Definition post_feedback (req : FeedbackReq) : M FeedbackResp :=
  try_catch
    (env <- ask ;;
     (* Validation *)
     if blank (r_title req) then ret (BadRequest "Title is required")
     else if blank (r_description req) then ret (BadRequest "Description is required")
     else
     let title := match r_title req with Some s => s | None => "" end in
     let description := match r_description req with Some s => s | None => "" end in
     let timestamp := opt_or_else (customTimestamp req) (now_iso env) in
     let date := opt_or_else (customDate req) (now_ymd env) in
     (* Upload photos to Cloudinary *)
     up <- (match files req with
            | [] => ret (inr ([], []))
            | _ :: _ =>
                try_catch
                  (acc <- upload_loop (files req) [] [] ;; ret (inr acc))
                  (fun cloudinaryError =>
                     log (LogError "Error uploading to Cloudinary" cloudinaryError) ;;;
                     ret (inl (ServerError "Failed to upload photos" cloudinaryError)))
            end) ;;
     match up with
     | inl resp => ret resp
     | inr (cloudinaryUrls, photoDetails) =>
         let feedbackData :=
           mkFeedbackData (trim title) (trim description)
                          (String.concat ", " cloudinaryUrls)
                          (trim_or_empty (r_userId req))
                          (trim_or_empty (r_emailId req)) date timestamp in
         appendToSheet feedbackData ;;;
         ret (Created (mkSubmission timestamp timestamp
                         (length cloudinaryUrls) (length (files req))
                         (f_title feedbackData) (f_description feedbackData)
                         cloudinaryUrls photoDetails))
     end)
    (fun error =>
       log (LogError "Error submitting feedback" error) ;;;
       ret (ServerError "Internal server error" error)).

(** A JS object built by property assignment, with string values:
    [o[k] = v] creates [k] at the end or overwrites it in place, except
    that assigning a non-object to [__proto__] is ignored. *)
Definition obj_set (k v : string) (o : JsObject.t string) : JsObject.t string :=
  if String.eqb k "__proto__" then o
  else match JsObject.get_own k o with
       | Some _ => JsObject.update k (fun _ => v) o
       | None => o ++ [(k, v)]
       end.

(** [header.toLowerCase().replace(/\s+/g, '_')] *)
Definition header_key (header : string) : string :=
  replace_ws_runs (toLowerCase header) false.

(** [row[index] || ''] *)
Definition cell (row : list string) (index : nat) : string :=
  match nth_error row index with Some v => or_else v "" | None => "" end.

(** [headers.forEach((header, index) => { feedback[key] = row[index] || '' })]
    from column [index] on. *)
Fixpoint assign_headers (headers : list string) (index : nat) (row : list string)
  (feedback : JsObject.t string) : JsObject.t string :=
  match headers with
  | [] => feedback
  | header :: hs =>
      assign_headers hs (S index) row
        (obj_set (header_key header) (cell row index) feedback)
  end.

(** The row mapping of GET /api/feedback, on [response.data.values]. *)
Definition rows_to_feedback (values : option (list (list string)))
  : list (JsObject.t string) :=
  let rows := match values with Some v => v | None => [] end in
  let headers := match rows with h :: _ => h | [] => [] end in
  map (fun row => assign_headers headers 0 row []) (skipn 1 rows).

(** Reference descriptions used by the statements below. *)

(** The uploader's outcome for each attachment, in input order, when the
    first of them is the [n]-th call to the uploader. *)
Fixpoint attempt_all (cloud : nat -> list Byte.byte -> string + CloudResult)
  (n : nat) (fs : list Attachment) : list (Attachment * (string + CloudResult)) :=
  match fs with
  | [] => []
  | f :: fs' => (f, cloud n (buffer f)) :: attempt_all cloud (S n) fs'
  end.

(** The upload results of the successful attempts, in order. *)
Definition succeeded (outs : list (Attachment * (string + CloudResult)))
  : list UploadResult :=
  flat_map (fun fo => match snd fo with
                      | inr r => [upload_result_of r (originalname (fst fo))]
                      | inl _ => []
                      end) outs.

(** One log entry per failed attempt, in order. *)
Definition failure_logs (outs : list (Attachment * (string + CloudResult)))
  : list LogEntry :=
  flat_map (fun fo => match snd fo with
                      | inl e => [LogUploadFailed (originalname (fst fo)) e]
                      | inr _ => []
                      end) outs.

(** The cell of the last column, from column [index] on, whose header
    normalises to [k]. *)
Fixpoint last_header_cell (k : string) (headers : list string) (index : nat)
  (row : list string) : option string :=
  match headers with
  | [] => None
  | header :: hs =>
      match last_header_cell k hs (S index) row with
      | Some v => Some v
      | None => if String.eqb (header_key header) k then Some (cell row index)
                else None
      end
  end.

End Feedback.


(* ================================================================= *)
(** ** Upload filter and error middleware *)

Module Upload.
Import JsString.

(** The state of Node's [path.posix.extname] scan; [None] stands for -1. *)
Inductive PreDot := PreDot0 | PreDot1 | PreDotNeg.

Record ExtScan := mkScan {
  startDot : option nat;
  startPart : nat;
  end_ : option nat;
  matchedSlash : bool;
  preDotState : PreDot
}.

Definition scan_init : ExtScan := mkScan None 0 None true PreDot0.

Definition code_at (s : list ascii) (i : nat) : ascii := nth i s zero.

(** [for (let i = path.length - 1; i >= 0; --i) { ... }]: [ext_scan n]
    runs the iterations [i = n - 1, ..., 0]. *)
Fixpoint ext_scan (n : nat) (s : list ascii) (st : ExtScan) : ExtScan :=
  match n with
  | 0 => st
  | S i =>
      let code := code_at s i in
      if Ascii.eqb code "/" then
        if matchedSlash st then ext_scan i s st
        else mkScan (startDot st) (S i) (end_ st) (matchedSlash st) (preDotState st)
      else
        let st1 := match end_ st with
                   | None => mkScan (startDot st) (startPart st) (Some (S i)) false
                                    (preDotState st)
                   | Some _ => st
                   end in
        let st2 :=
          if Ascii.eqb code "." then
            match startDot st1 with
            | None => mkScan (Some i) (startPart st1) (end_ st1) (matchedSlash st1)
                             (preDotState st1)
            | Some _ =>
                match preDotState st1 with
                | PreDot1 => st1
                | _ => mkScan (startDot st1) (startPart st1) (end_ st1)
                              (matchedSlash st1) PreDot1
                end
            end
          else
            match startDot st1 with
            | Some _ => mkScan (startDot st1) (startPart st1) (end_ st1)
                               (matchedSlash st1) PreDotNeg
            | None => st1
            end in
        ext_scan i s st2
  end.

(** [path.extname(path)] (POSIX). *)
Definition extname (path : string) : string :=
  let l := list_ascii_of_string path in
  let st := ext_scan (List.length l) l scan_init in
  match startDot st, end_ st with
  | Some sd, Some e =>
      match preDotState st with
      | PreDot0 => ""
      | PreDot1 =>
          if Nat.eqb (S sd) e && Nat.eqb sd (S (startPart st)) then ""
          else substring sd (e - sd) path
      | PreDotNeg => substring sd (e - sd) path
      end
  | _, _ => ""
  end.

(** [s.slice(1)] *)
Definition slice1 (s : string) : string :=
  match s with EmptyString => EmptyString | String _ s' => s' end.

(** [s.split(',')] *)
Fixpoint split_comma (s : string) : list string :=
  match s with
  | EmptyString => [""]
  | String c s' =>
      if Ascii.eqb c "," then "" :: split_comma s'
      else match split_comma s' with
           | x :: xs => String c x :: xs
           | [] => [String c ""]
           end
  end.

Definition default_types : list string := ["jpg"; "jpeg"; "png"; "gif"; "webp"].

(** [process.env.ALLOWED_FILE_TYPES?.split(',') || [...]]: a split is a
    non-empty array, hence truthy. *)
Definition allowed_types (ALLOWED_FILE_TYPES : option string) : list string :=
  match ALLOWED_FILE_TYPES with
  | Some v => split_comma v
  | None => default_types
  end.

(** [path.extname(file.originalname).toLowerCase().slice(1)] *)
Definition file_ext (originalname : string) : string :=
  slice1 (toLowerCase (extname originalname)).

Inductive FilterResult :=
| Accept
| Reject (message : string).

(** [fileFilter(req, file, cb)] *)
Definition fileFilter (allowedTypes : list string) (originalname : string)
  : FilterResult :=
  let fileExt := file_ext originalname in
  if existsb (String.eqb fileExt) allowedTypes then Accept
  else Reject ("File type " ++ fileExt ++ " is not allowed. Allowed types: "
               ++ String.concat ", " allowedTypes).

(** [s.includes(needle)] *)
Fixpoint includes (needle hay : string) : bool :=
  prefix needle hay ||
  match hay with
  | EmptyString => false
  | String _ hay' => includes needle hay'
  end.

(** Errors that reach the error middleware: multer's own errors (with
    their [code]) and plain [Error]s such as the file filter's. *)
Inductive ErrorValue :=
| MulterError (code message : string)
| PlainError (message : string).

Definition dquote : string := String (ascii_of_nat 34) "".

Record MwResp := mkMwResp { status : nat; mw_error : string; mw_message : string }.

(** The error-handling middleware; [max_mb] is the rendered
    [(parseInt(process.env.MAX_FILE_SIZE) || 10 * 1024 * 1024) / (1024 * 1024)]. *)
Definition error_middleware (max_mb : string) (error : ErrorValue) : MwResp :=
  let message := match error with MulterError _ m | PlainError m => m end in
  let generic :=
    if includes "File type" message then mkMwResp 400 "Invalid file type" message
    else mkMwResp 500 "Internal server error" message in
  match error with
  | MulterError code _ =>
      if String.eqb code "LIMIT_FILE_SIZE" then
        mkMwResp 400 "File too large" ("Maximum file size is " ++ max_mb ++ "MB")
      else if String.eqb code "LIMIT_FILE_COUNT" then
        mkMwResp 400 "Too many files" "Maximum 10 files allowed"
      else if String.eqb code "LIMIT_UNEXPECTED_FILE" then
        mkMwResp 400 "Unexpected file field"
                 ("Please use field name " ++ dquote ++ "photos" ++ dquote
                  ++ " for image uploads")
      else generic
  | PlainError _ => generic
  end.

End Upload.

(* ================================================================= *)
(** ** Reading feedback back, health and the configuration check *)

Module FeedbackRead.
Import JsString Feedback.

Fixpoint drop_empty_rows_rev (rs : list (list string)) : list (list string) :=
  match rs with
  | [] :: rs' => drop_empty_rows_rev rs'
  | _ => rs
  end.

(** [values.get] of [Sheet1!A:G]: columns A to G of every row, trailing
    empty cells and trailing empty rows omitted, [values] absent when
    nothing is left. *)
Definition values_get_AG (rows : list (list string)) : option (list (list string)) :=
  match rev (drop_empty_rows_rev (rev (map (fun r => trim_row (firstn 7 r)) rows))) with
  | [] => None
  | rs => Some rs
  end.

Inductive ListResp :=
| FeedbackList (count : nat) (data : list (JsObject.t string))   (* 200 *)
| ListError (error message : string).                            (* 500 *)

(** GET /api/feedback. *)
Definition get_feedback : M ListResp :=
  try_catch
    (getGoogleSheetsInstance ;;;
     w <- get ;;
     let data := rows_to_feedback (values_get_AG (sheet w)) in
     ret (FeedbackList (List.length data) data))
    (fun error =>
       log (LogError "Error retrieving feedback" error) ;;;
       ret (ListError "Internal server error" error)).

End FeedbackRead.

Module Config.
Import Upload.

(** [!!(process.env.CLOUDINARY_CLOUD_NAME && process.env.CLOUDINARY_API_KEY)]
    in GET /health. *)
Definition truthy_str (v : option string) : bool :=
  match v with Some s => negb (String.eqb s "") | None => false end.

Definition health_cloudinary_configured (cloud_name api_key : option string) : bool :=
  truthy_str cloud_name && truthy_str api_key.

(** The variables the configuration check (part_001) reads. *)
Record ConfigEnv := mkConfigEnv {
  GOOGLE_SHEET_ID : option string;
  CLOUDINARY_CLOUD_NAME : option string;
  CLOUDINARY_API_KEY : option string;
  CLOUDINARY_API_SECRET : option string
}.

(** [a.json]: absent, not JSON, or parsed with the three fields read. *)
Inductive CredFile :=
| NoCredFile
| BadJson
| ParsedCreds (client_email private_key project_id : option string).

(** [!v || v.includes('your_')] marks a variable as not configured. *)
Definition var_ok (v : option string) : bool :=
  match v with
  | None => false
  | Some s => negb (String.eqb s "") && negb (includes "your_" s)
  end.

(** The final value of [configValid]. *)
Definition configValid (cfg : ConfigEnv) (cred : CredFile) : bool :=
  var_ok (GOOGLE_SHEET_ID cfg) &&
  forallb var_ok [CLOUDINARY_CLOUD_NAME cfg; CLOUDINARY_API_KEY cfg;
                  CLOUDINARY_API_SECRET cfg] &&
  match cred with
  | ParsedCreds e k p => truthy_str e && truthy_str k && truthy_str p
  | _ => false
  end.

End Config.

(* ================================================================= *)
(** ** Concrete scenarios *)

Module Scenarios.
Import Feedback.

(** The example of the spec: three attachments, the second one failing. *)
Definition cloud3 (n : nat) (_ : list Byte.byte) : string + CloudResult :=
  match n with
  | 0 => inr (mkCloud "https://cdn/1.png" "p1" 10 10 100)
  | 1 => inl "Upload failed"
  | _ => inr (mkCloud "https://cdn/3.png" "p3" 10 10 100)
  end.

Definition env3 : Env :=
  mkEnv cloud3 true "2026-10-15T08:00:00.000Z" "2026-10-15".

Definition world0 : World := mkWorld [sheet_headers] 1 0 [].

Definition req3 : FeedbackReq :=
  mkReq (Some "Broken link") (Some "The page is empty") None None None None
        [ mkAttachment [] "1.png"; mkAttachment [] "2.png"; mkAttachment [] "3.png" ].



Definition req_empty_custom : FeedbackReq :=
  mkReq (Some "Broken link") (Some "The page is empty") None None
        (Some "") (Some "") [].

End Scenarios.

(* ================================================================= *)
(** * Properties of the icon registry *)

Module IconFacts.
Import JsObject Icons.

Lemma count_active_app (a b : Registry) :
  count_active (a ++ b) = count_active a + count_active b.
Proof. unfold count_active. now rewrite filter_app, length_app. Qed.

Lemma count_active_deactivate_all (reg : Registry) :
  count_active (deactivate_all reg) = 0.
Proof. induction reg as [|[k r] reg IH]; simpl; auto. Qed.

Lemma get_own_deactivate_all (k : string) (reg : Registry) :
  get_own k (deactivate_all reg) = option_map (set_active false) (get_own k reg).
Proof.
  induction reg as [|[k' r] reg IH]; simpl; auto.
  destruct (String.eqb k k'); auto.
Qed.

Lemma get_own_update_same {V} (k : string) (f : V -> V) (o : JsObject.t V) :
  get_own k (update k f o) = option_map f (get_own k o).
Proof.
  induction o as [|[k' v] o IH]; simpl; auto.
  destruct (String.eqb k k') eqn:E; simpl; rewrite ?E; auto.
Qed.

Lemma get_own_update_other {V} (k p : string) (f : V -> V) (o : JsObject.t V) :
  p <> k -> get_own p (update k f o) = get_own p o.
Proof.
  intros Hpk. induction o as [|[k' v] o IH]; simpl; auto.
  destruct (String.eqb k k') eqn:E; simpl.
  - apply String.eqb_eq in E; subst k'.
    apply String.eqb_neq in Hpk. now rewrite Hpk.
  - destruct (String.eqb p k'); auto.
Qed.

Lemma count_active_update_one (k : string) (now : nat) (reg : Registry) :
  count_active reg = 0 -> get_own k reg <> None ->
  count_active (update k (fun r => set_lastUpdated now (set_active true r)) reg) = 1.
Proof.
  induction reg as [|[k' r] reg IH]; simpl; intros H0 Hin.
  - congruence.
  - unfold count_active in *; simpl in *.
    destruct (String.eqb k k') eqn:E; simpl.
    + destruct (isActive r); simpl in *; [discriminate|]. exact (f_equal S H0).
    + destruct (isActive r); simpl in *; [discriminate|]. now apply IH.
Qed.

(** The activation path, when the target is an own entry. *)
Lemma activate_own (k : string) (now : nat) (reg : Registry) (t : IconRecord) :
  k <> "" -> get_own k reg = Some t ->
  snd (activate k now reg) =
  update k (fun r => set_lastUpdated now (set_active true r)) (deactivate_all reg).
Proof.
  intros Hk Ht. unfold activate.
  apply String.eqb_neq in Hk. rewrite Hk.
  unfold get at 1. rewrite Ht. simpl.
  unfold get.
  rewrite get_own_deactivate_all, Ht. simpl.
  destruct (get_own k (update k _ (deactivate_all reg))); reflexivity.
Qed.

Lemma step_plain_preserves_one (op : AdminOp) (now : nat) (reg : Registry) :
  plain_op op = true -> count_active reg = 1 -> count_active (step op now reg) = 1.
Proof.
  intros Hop H1. destruct op as [k d u | k]; simpl.
  - unfold add.
    destruct (String.eqb k "" || String.eqb d "" || String.eqb u ""); simpl; auto.
    destruct (truthy (get k reg)); simpl; auto.
    rewrite count_active_app. rewrite H1. reflexivity.
  - simpl in Hop.
    destruct (String.eqb k "") eqn:Ek; [unfold activate; now rewrite Ek|].
    apply String.eqb_neq in Ek.
    destruct (get_own k reg) as [t|] eqn:Ht.
    + rewrite (activate_own k now reg t Ek Ht).
      apply count_active_update_one.
      * apply count_active_deactivate_all.
      * rewrite get_own_deactivate_all, Ht. discriminate.
    + unfold activate. apply String.eqb_neq in Ek. rewrite Ek.
      unfold get. rewrite Ht.
      destruct (is_inherited k); simpl in *; [discriminate|]. exact H1.
Qed.

(** Requests that never activate a member of [Object.prototype] keep
    exactly one active icon from the bootstrap table on. *)
Lemma run_plain_exactly_one (ops : list (AdminOp * nat)) (reg : Registry) :
  Forall (fun p => plain_op (fst p) = true) ops ->
  count_active reg = 1 -> count_active (run ops reg) = 1.
Proof.
  revert reg. induction ops as [|[op now] ops IH]; intros reg Hall H1; simpl; auto.
  inversion Hall as [|? ? Hop Hrest]; subst.
  apply IH; auto. now apply step_plain_preserves_one.
Qed.

(** Adding an id the registry already holds changes nothing. *)
Lemma add_present_unchanged (k d u : string) (now : nat) (reg : Registry) (t : IconRecord) :
  get_own k reg = Some t -> snd (add k d u now reg) = reg.
Proof.
  intros Ht. unfold add.
  destruct (String.eqb k "" || String.eqb d "" || String.eqb u ""); auto.
  unfold get. rewrite Ht. reflexivity.
Qed.

(** Activating a name that is neither an entry nor inherited changes
    nothing. *)
Lemma activate_undefined_unchanged (k : string) (now : nat) (reg : Registry) :
  get k reg = Undefined ->
  activate k now reg = (AdminBadRequest ("Invalid icon name '" ++ k ++ "'"), reg)
  \/ activate k now reg = (AdminBadRequest "iconName is required", reg).
Proof.
  intros Hu. unfold activate. rewrite Hu.
  destruct (String.eqb k ""); auto.
Qed.

End IconFacts.

(* ================================================================= *)
(** * Properties of the feedback pipeline *)

Module FeedbackFacts.
Import JsString Feedback.

Lemma blank_Some_false (s : string) : trim s <> "" -> blank (Some s) = false.
Proof.
  intros H. simpl.
  destruct (String.eqb s "") eqn:E.
  - apply String.eqb_eq in E. subst s. now contradiction H.
  - apply String.eqb_neq in H. now rewrite H.
Qed.

Lemma or_else_empty (s : string) : or_else s "" = s.
Proof. unfold or_else. destruct (String.eqb s "") eqn:E; auto. now apply String.eqb_eq in E. Qed.

(** The upload loop attempts every file once, in order, keeps the
    successful results in order and logs each failure. *)
Lemma upload_loop_spec (fs : list Attachment) (urls : list string)
  (dets : list UploadResult) (env : Env) (w : World) :
  upload_loop fs urls dets env w =
  (Ok (urls ++ map u_url (succeeded (attempt_all (cloud env) (upload_calls w) fs)),
       dets ++ succeeded (attempt_all (cloud env) (upload_calls w) fs)),
   mkWorld (sheet w) (header_writes w) (upload_calls w + length fs)
           (logs w ++ failure_logs (attempt_all (cloud env) (upload_calls w) fs))).
Proof.
  revert urls dets w.
  induction fs as [|f fs IH]; intros urls dets [s h c l]; simpl.
  - now rewrite !app_nil_r, Nat.add_0_r.
  - unfold bind, try_catch, uploadToCloudinary, bind, ask, get, put; simpl.
    destruct (cloud env c (buffer f)) as [e|r]; simpl.
    + unfold log, bind, get, put; simpl. rewrite IH; simpl.
      rewrite <- !app_assoc, Nat.add_succ_r. reflexivity.
    + rewrite IH; simpl.
      rewrite <- !app_assoc, Nat.add_succ_r. reflexivity.
Qed.

Lemma attempt_all_nil (cl : nat -> list Byte.byte -> string + CloudResult) (n : nat) :
  attempt_all cl n [] = [].
Proof. reflexivity. Qed.

(** The whole handler on a submission that passes validation, when the
    record store is reachable. *)
Lemma post_feedback_valid (env : Env) (w : World) (req : FeedbackReq) (t d : string) :
  r_title req = Some t -> trim t <> "" ->
  r_description req = Some d -> trim d <> "" ->
  sheets_ok env = true ->
  let outs := attempt_all (cloud env) (upload_calls w) (files req) in
  let urls := map u_url (succeeded outs) in
  let ts := opt_or_else (customTimestamp req) (now_iso env) in
  let dt := opt_or_else (customDate req) (now_ymd env) in
  post_feedback req env w =
  (Ok (Created (mkSubmission ts ts (length urls) (length (files req))
                 (trim t) (trim d) urls (succeeded outs))),
   mkWorld (sheet w ++ [sheet_row (mkFeedbackData (trim t) (trim d)
                                     (String.concat ", " urls)
                                     (trim_or_empty (r_userId req))
                                     (trim_or_empty (r_emailId req)) dt ts)])
           (header_writes w) (upload_calls w + length (files req))
           (logs w ++ failure_logs outs)).
Proof.
  intros Ht Htt Hd Hdt Hok. cbv zeta.
  unfold post_feedback, try_catch, bind, ask.
  rewrite Ht, Hd, (blank_Some_false t Htt), (blank_Some_false d Hdt).
  destruct (files req) as [|f fs] eqn:Hf.
  - cbv [appendToSheet try_catch bind getGoogleSheetsInstance ask ret get put].
    rewrite Hok. simpl.
    destruct w as [s h c l]. simpl. now rewrite !app_nil_r, Nat.add_0_r.
  - rewrite <- Hf. rewrite upload_loop_spec. simpl. rewrite Hf.
    cbv [appendToSheet try_catch bind getGoogleSheetsInstance ask ret get put].
    rewrite Hok. simpl. reflexivity.
Qed.

Lemma values_get_header_update (rows : list (list string)) :
  values_get_header (update_header sheet_headers rows) = Some [sheet_headers].
Proof. destruct rows as [|r rs]; reflexivity. Qed.

(** One run of the header bootstrap with a reachable store. *)
Lemma initializeSheetHeaders_ok (env : Env) (w : World) :
  sheets_ok env = true ->
  initializeSheetHeaders env w =
  (Ok tt, match values_get_header (sheet w) with
          | None => mkWorld (update_header sheet_headers (sheet w))
                            (S (header_writes w)) (upload_calls w) (logs w)
          | Some _ => w
          end).
Proof.
  intros Hok.
  cbv [initializeSheetHeaders try_catch bind getGoogleSheetsInstance ask ret get put].
  rewrite Hok. simpl.
  destruct (values_get_header (sheet w)) as [[|r rs]|] eqn:E; auto.
  exfalso. revert E. unfold values_get_header.
  destruct (sheet w) as [|r0 rows]; [congruence|].
  destruct (trim_row (firstn 7 r0)); congruence.
Qed.

Lemma get_own_app_new (k k' v : string) (o : JsObject.t string) :
  JsObject.get_own k (o ++ [(k', v)]) =
  match JsObject.get_own k o with
  | Some x => Some x
  | None => if String.eqb k k' then Some v else None
  end.
Proof.
  induction o as [|[k0 v0] o IH]; simpl; auto.
  destruct (String.eqb k k0); auto.
Qed.

Lemma get_own_obj_set (k k' v : string) (o : JsObject.t string) :
  JsObject.get_own k (obj_set k' v o) =
  if String.eqb k' "__proto__" then JsObject.get_own k o
  else if String.eqb k k' then Some v else JsObject.get_own k o.
Proof.
  unfold obj_set. destruct (String.eqb k' "__proto__"); auto.
  destruct (JsObject.get_own k' o) as [x|] eqn:E.
  - destruct (String.eqb k k') eqn:Ekk.
    + apply String.eqb_eq in Ekk; subst k'.
      now rewrite IconFacts.get_own_update_same, E.
    + apply String.eqb_neq in Ekk.
      now rewrite IconFacts.get_own_update_other by congruence.
  - rewrite get_own_app_new.
    destruct (String.eqb k k') eqn:Ekk.
    + apply String.eqb_eq in Ekk; subst k'. now rewrite E.
    + destruct (JsObject.get_own k o); auto.
Qed.

Lemma assign_headers_get (k : string) (hs : list string) (index : nat)
  (row : list string) (o : JsObject.t string) :
  JsObject.get_own k (assign_headers hs index row o) =
  if String.eqb k "__proto__" then JsObject.get_own k o
  else match last_header_cell k hs index row with
       | Some v => Some v
       | None => JsObject.get_own k o
       end.
Proof.
  revert index o. induction hs as [|h hs IH]; intros index o; simpl.
  - destruct (String.eqb k "__proto__"); auto.
  - rewrite IH, get_own_obj_set.
    destruct (String.eqb k "__proto__") eqn:Ek.
    + apply String.eqb_eq in Ek; subst k.
      destruct (String.eqb (header_key h) "__proto__") eqn:Eh; auto.
      destruct (String.eqb "__proto__" (header_key h)) eqn:Eh'; auto.
      apply String.eqb_eq in Eh'. rewrite <- Eh', String.eqb_refl in Eh.
      discriminate.
    + destruct (last_header_cell k hs (S index) row); auto.
      destruct (String.eqb (header_key h) "__proto__") eqn:Eh.
      * apply String.eqb_eq in Eh. rewrite Eh.
        destruct (String.eqb "__proto__" k) eqn:Ek'; auto.
        apply String.eqb_eq in Ek'. subst k. rewrite String.eqb_refl in Ek.
        discriminate.
      * destruct (String.eqb k (header_key h)) eqn:Ekh.
        -- apply String.eqb_eq in Ekh. subst k. now rewrite String.eqb_refl.
        -- destruct (String.eqb (header_key h) k) eqn:Ehk; auto.
           apply String.eqb_eq in Ehk. subst k.
           now rewrite String.eqb_refl in Ekh.
Qed.

End FeedbackFacts.

(* ================================================================= *)
(** * The claims *)

Module IconClaims.
Import JsObject Icons IconFacts.

(** C1 (the one-active-icon invariant).  From the bootstrap table, a
    single activation of [toString], a name the registry does not hold
    but which [activeIcons[iconName]] finds on [Object.prototype], is
    answered as a success and leaves no icon active: the guard
    [if (!activeIcons[iconName])] lets it through, the loop clears every
    entry, and [isActive = true] is written on the inherited function. *)
Theorem activate_inherited_name_leaves_none_active :
  count_active (activeIcons_init 0) = 1 /\
  get_own "toString" (activeIcons_init 0) = None /\
  fst (activate "toString" 1 (activeIcons_init 0)) = AdminOk "toString" None /\
  count_active (run [(OpActivate "toString", 1)] (activeIcons_init 0)) = 0 /\
  current_icon "" (run [(OpActivate "toString", 1)] (activeIcons_init 0))
    = NoActiveIcon.
Proof. repeat split; reflexivity. Qed.

(** C4 (counterexample).  Activating [navratri1] at time 5 on the
    bootstrap table (created at time 0) clears [DEFAULT]'s flag but
    does not touch its [lastUpdated]: it stays 0. *)
Lemma activate_previous_lastUpdated_cex :
  get_own "DEFAULT" (snd (activate "navratri1" 5 (activeIcons_init 0)))
    = Some (mkIcon "Default" "/uploads/icons/default.png" false 0) /\
  ~ (exists r, get_own "DEFAULT" (snd (activate "navratri1" 5 (activeIcons_init 0)))
                 = Some r /\ lastUpdated r = 5).
Proof.
  split; [reflexivity|].
  intros [r [Hr Hl]]. simpl in Hr. injection Hr as <-. simpl in Hl. discriminate.
Qed.

(** C4 (amended).  A successful activation of an entry [k] while a
    different entry [p] is active sets [p]'s flag to false and leaves
    [p]'s [lastUpdated] as it was, and sets [k]'s flag to true and its
    [lastUpdated] to the activation time. *)
Theorem activate_flips_previous_and_target (reg : Registry) (k p : string)
  (now : nat) (t rp : IconRecord) :
  k <> "" -> get_own k reg = Some t ->
  p <> k -> get_own p reg = Some rp -> isActive rp = true ->
  fst (activate k now reg) = AdminOk k (Some (name t, url t)) /\
  get_own k (snd (activate k now reg)) = Some (mkIcon (name t) (url t) true now) /\
  get_own p (snd (activate k now reg))
    = Some (mkIcon (name rp) (url rp) false (lastUpdated rp)).
Proof.
  intros Hk Ht Hpk Hp Hact.
  assert (Hsnd := activate_own k now reg t Hk Ht).
  split; [|split].
  - unfold activate.
    assert (Hk' := Hk). apply String.eqb_neq in Hk'. rewrite Hk'.
    unfold get. rewrite Ht. simpl.
    rewrite get_own_deactivate_all, Ht. simpl.
    rewrite get_own_update_same, get_own_deactivate_all, Ht. reflexivity.
  - rewrite Hsnd, get_own_update_same, get_own_deactivate_all, Ht. reflexivity.
  - rewrite Hsnd, get_own_update_other by exact Hpk.
    rewrite get_own_deactivate_all, Hp. reflexivity.
Qed.

Lemma activate_flips_previous_and_target_witness :
  ("navratri1" <> "" /\
   get_own "navratri1" (activeIcons_init 0)
     = Some (mkIcon "Navratri 1" "/uploads/icons/navratri1.png" false 0) /\
   "DEFAULT" <> "navratri1" /\
   get_own "DEFAULT" (activeIcons_init 0)
     = Some (mkIcon "Default" "/uploads/icons/default.png" true 0) /\
   isActive (mkIcon "Default" "/uploads/icons/default.png" true 0) = true) /\
  (fst (activate "navratri1" 5 (activeIcons_init 0))
     = AdminOk "navratri1" (Some ("Navratri 1", "/uploads/icons/navratri1.png")) /\
   get_own "navratri1" (snd (activate "navratri1" 5 (activeIcons_init 0)))
     = Some (mkIcon "Navratri 1" "/uploads/icons/navratri1.png" true 5) /\
   get_own "DEFAULT" (snd (activate "navratri1" 5 (activeIcons_init 0)))
     = Some (mkIcon "Default" "/uploads/icons/default.png" false 0)).
Proof.
  split.
  - repeat split; try reflexivity; discriminate.
  - apply (activate_flips_previous_and_target (activeIcons_init 0) "navratri1"
             "DEFAULT" 5 (mkIcon "Navratri 1" "/uploads/icons/navratri1.png" false 0)
             (mkIcon "Default" "/uploads/icons/default.png" true 0));
      first [reflexivity | discriminate].
Defined.

(** C5 (atomicity of rejected mutations).  On the bootstrap table,
    [activate("constructor")] names no entry, yet it is not rejected: the
    response is a success and the registry changes ([DEFAULT] is no
    longer active).  Same defect as C1: the membership guard reads
    [activeIcons[iconName]], which finds [Object.prototype] members. *)
Theorem activate_absent_inherited_name_mutates :
  get_own "constructor" (activeIcons_init 0) = None /\
  fst (activate "constructor" 1 (activeIcons_init 0)) = AdminOk "constructor" None /\
  snd (activate "constructor" 1 (activeIcons_init 0)) <> activeIcons_init 0 /\
  current_icon "" (snd (activate "constructor" 1 (activeIcons_init 0))) = NoActiveIcon.
Proof.
  repeat split; try reflexivity.
  simpl. intros H. injection H as H. discriminate H.
Qed.

(** C10 (bootstrap table).  At start the registry holds [DEFAULT],
    [navratri1], [navratri3] in that order, only [DEFAULT] is active,
    the current icon is [DEFAULT] and the admin listing returns the
    three entries in that order. *)
Theorem bootstrap_registry (t0 : nat) (host : string) :
  keys (activeIcons_init t0) = ["DEFAULT"; "navratri1"; "navratri3"] /\
  map fst (filter (fun kv => isActive (snd kv)) (activeIcons_init t0)) = ["DEFAULT"] /\
  current_icon host (activeIcons_init t0)
    = CurrentIcon "DEFAULT" "Default" (host ++ "/uploads/icons/default.png") t0 /\
  list_icons host (activeIcons_init t0) =
    [ mkView "DEFAULT" "Default" (host ++ "/uploads/icons/default.png") true t0;
      mkView "navratri1" "Navratri 1" (host ++ "/uploads/icons/navratri1.png") false t0;
      mkView "navratri3" "Navratri 3" (host ++ "/uploads/icons/navratri3.png") false t0 ].
Proof. repeat split; reflexivity. Qed.

End IconClaims.

Module FeedbackClaims.
Import JsString Feedback FeedbackFacts Scenarios.







Example spec_three_attachments :
  match post_feedback req3 env3 world0 with
  | (Ok (Created data), w') =>
      photosUploaded data = 2 /\ photosAttempted data = 3 /\
      photoUrls data = ["https://cdn/1.png"; "https://cdn/3.png"] /\
      logs w' = [LogUploadFailed "2.png" "Upload failed"]
  | _ => False
  end.
Proof. vm_compute. repeat split. Qed.




(** C6 (validation first).  A submission whose title is absent or
    trims to the empty string, or whose description does, is answered
    400 naming the first missing field, and the world is untouched: no
    upload call, no appended row, nothing logged. *)
Theorem blank_field_rejected_before_upload (env : Env) (w : World)
  (req : FeedbackReq) :
  (r_title req = None \/ (exists s, r_title req = Some s /\ trim s = "")) \/
  (r_description req = None \/ (exists s, r_description req = Some s /\ trim s = "")) ->
  post_feedback req env w =
  (Ok (BadRequest (if blank (r_title req) then "Title is required"
                   else "Description is required")), w).
Proof.
  intros H.
  assert (Hb : blank (r_title req) = true \/ blank (r_description req) = true).
  { destruct H as [[H|[s [H Hs]]]|[H|[s [H Hs]]]]; rewrite H; simpl; auto;
      rewrite Hs; simpl; rewrite orb_true_r; auto. }
  cbv [post_feedback try_catch bind ask ret].
  destruct (blank (r_title req)); [reflexivity|].
  destruct Hb as [Hb|Hb]; [discriminate|]. rewrite Hb. reflexivity.
Qed.

Lemma blank_field_rejected_before_upload_witness :
  (((mkReq (Some "   ") (Some "d") None None None None (files req3)).(r_title) = None \/
    (exists s, (mkReq (Some "   ") (Some "d") None None None None (files req3)).(r_title)
                 = Some s /\ trim s = "")) \/
   ((mkReq (Some "   ") (Some "d") None None None None (files req3)).(r_description) = None \/
    (exists s, (mkReq (Some "   ") (Some "d") None None None None (files req3)).(r_description)
                 = Some s /\ trim s = ""))) /\
  post_feedback (mkReq (Some "   ") (Some "d") None None None None (files req3)) env3 world0
  = (Ok (BadRequest "Title is required"), world0).
Proof.
  split.
  - left. right. exists "   ". split; reflexivity.
  - apply (blank_field_rejected_before_upload env3 world0
             (mkReq (Some "   ") (Some "d") None None None None (files req3))).
    left. right. exists "   ". split; reflexivity.
Defined.

(** C7 (idempotent header bootstrap).  With a reachable store and an
    empty header range, a first run writes the 7 headers once (the
    range then reads back as them), and a second run right after
    changes nothing: no further write. *)
Theorem header_bootstrap_idempotent (env : Env) (w : World) :
  sheets_ok env = true -> values_get_header (sheet w) = None ->
  fst (initializeSheetHeaders env w) = Ok tt /\
  header_writes (snd (initializeSheetHeaders env w)) = S (header_writes w) /\
  values_get_header (sheet (snd (initializeSheetHeaders env w))) = Some [sheet_headers] /\
  initializeSheetHeaders env (snd (initializeSheetHeaders env w))
    = (Ok tt, snd (initializeSheetHeaders env w)).
Proof.
  intros Hok Hnone.
  rewrite (initializeSheetHeaders_ok env w Hok), Hnone. simpl.
  split; [reflexivity|]. split; [reflexivity|].
  rewrite values_get_header_update. split; [reflexivity|].
  rewrite (initializeSheetHeaders_ok env _ Hok). simpl.
  rewrite values_get_header_update. reflexivity.
Qed.

Lemma header_bootstrap_idempotent_witness :
  (sheets_ok env3 = true /\ values_get_header (sheet (mkWorld [] 0 0 [])) = None) /\
  fst (initializeSheetHeaders env3 (mkWorld [] 0 0 [])) = Ok tt /\
  header_writes (snd (initializeSheetHeaders env3 (mkWorld [] 0 0 []))) = 1 /\
  values_get_header (sheet (snd (initializeSheetHeaders env3 (mkWorld [] 0 0 []))))
    = Some [sheet_headers] /\
  initializeSheetHeaders env3 (snd (initializeSheetHeaders env3 (mkWorld [] 0 0 [])))
    = (Ok tt, snd (initializeSheetHeaders env3 (mkWorld [] 0 0 []))).
Proof.
  split; [split; reflexivity|].
  apply (header_bootstrap_idempotent env3 (mkWorld [] 0 0 [])); reflexivity.
Defined.

(** C8 (counterexample).  With headers [Title] and [title], both
    normalise to [title]; the record maps [title] to the second column's
    cell, not to the cell under [Title]. *)
Lemma duplicate_header_key_cex :
  ~ (forall i h, nth_error ["Title"; "title"] i = Some h ->
       exists rec,
         nth_error (rows_to_feedback (Some [["Title"; "title"]; ["a"; "b"]])) 0 = Some rec /\
         JsObject.get_own (header_key h) rec = Some (cell ["a"; "b"] i)).
Proof.
  intros H. destruct (H 0 "Title" eq_refl) as [rec [Hr Hg]].
  vm_compute in Hr. injection Hr as <-. vm_compute in Hg. discriminate Hg.
Qed.

(** C8 (amended).  Row 0 is the header; there is one record per later
    row; in each, a key other than [__proto__] is present exactly when
    some header normalises to it (lower-cased, whitespace runs to one
    underscore), and its value is the cell (or the empty string, when
    the row is shorter) of the last column whose header normalises to
    it.  No rows, or no values at all, give no records. *)
Theorem rows_to_feedback_last_column_wins (hdr : list string)
  (body : list (list string)) :
  rows_to_feedback (Some (hdr :: body)) = map (fun row => assign_headers hdr 0 row []) body /\
  length (rows_to_feedback (Some (hdr :: body))) = length body /\
  (forall row k, k <> "__proto__" ->
     JsObject.get_own k (assign_headers hdr 0 row []) = last_header_cell k hdr 0 row) /\
  rows_to_feedback None = [] /\ rows_to_feedback (Some []) = [].
Proof.
  split; [reflexivity|]. split; [apply length_map|].
  split; [|split; reflexivity].
  intros row k Hk. rewrite assign_headers_get.
  destruct (String.eqb k "__proto__") eqn:E.
  - apply String.eqb_eq in E. contradiction.
  - destruct (last_header_cell k hdr 0 row); auto.
Qed.

Lemma rows_to_feedback_last_column_wins_witness :
  "title" <> "__proto__" /\
  JsObject.get_own "title" (assign_headers ["Title"; "title"; "Notes"] 0 ["a"; "b"] []) =
  last_header_cell "title" ["Title"; "title"; "Notes"] 0 ["a"; "b"] /\
  last_header_cell "title" ["Title"; "title"; "Notes"] 0 ["a"; "b"] = Some "b" /\
  last_header_cell "notes" ["Title"; "title"; "Notes"] 0 ["a"; "b"] = Some "".
Proof.
  split; [discriminate|]. split; [|split; reflexivity].
  apply (proj1 (proj2 (proj2 (rows_to_feedback_last_column_wins ["Title"; "title"; "Notes"]
                                  [["a"; "b"]])))).
  discriminate.
Defined.

(** C9 (counterexample).  An empty [customTimestamp] (and [customDate])
    sent with the form is replaced by the generated values. *)
Lemma empty_custom_timestamp_replaced_cex :
  customTimestamp req_empty_custom = Some "" /\ customDate req_empty_custom = Some "" /\
  exists data w',
    post_feedback req_empty_custom env3 world0 = (Ok (Created data), w') /\
    s_id data = "2026-10-15T08:00:00.000Z" /\ s_id data <> "" /\
    nth 5 (last (sheet w') []) "" = "2026-10-15" /\
    nth 6 (last (sheet w') []) "" = "2026-10-15T08:00:00.000Z".
Proof.
  split; [reflexivity|]. split; [reflexivity|].
  vm_compute. do 2 eexists. repeat split. discriminate.
Qed.

(** C9 (amended).  For a valid submission with a reachable store, the
    record's timestamp (and the response id) is [customTimestamp] when
    it is given and non-empty, taken verbatim, and the current ISO time
    when it is absent or empty; likewise the record's date is
    [customDate] when given and non-empty, and the current date when it
    is absent or empty. *)
Theorem custom_timestamp_and_date (env : Env) (w : World) (req : FeedbackReq)
  (t d : string) :
  r_title req = Some t -> trim t <> "" ->
  r_description req = Some d -> trim d <> "" ->
  sheets_ok env = true ->
  exists data w' row,
    post_feedback req env w = (Ok (Created data), w') /\
    sheet w' = sheet w ++ [row] /\ nth 6 row "" = s_id data /\
    (forall s, customTimestamp req = Some s -> s <> "" -> s_id data = s) /\
    ((customTimestamp req = None \/ customTimestamp req = Some "") ->
     s_id data = now_iso env) /\
    (forall s, customDate req = Some s -> s <> "" -> nth 5 row "" = s) /\
    ((customDate req = None \/ customDate req = Some "") ->
     nth 5 row "" = now_ymd env).
Proof.
  intros Ht Htt Hd Hdt Hok.
  rewrite (post_feedback_valid env w req t d Ht Htt Hd Hdt Hok).
  do 3 eexists. split; [reflexivity|]. split; [reflexivity|].
  simpl. rewrite !or_else_empty.
  split; [reflexivity|].
  repeat split.
  - intros s Hs Hne. rewrite Hs. unfold opt_or_else, or_else.
    apply String.eqb_neq in Hne. now rewrite Hne.
  - intros [Hs|Hs]; rewrite Hs; reflexivity.
  - intros s Hs Hne. rewrite Hs. unfold opt_or_else, or_else.
    apply String.eqb_neq in Hne. now rewrite Hne.
  - intros [Hs|Hs]; rewrite Hs; reflexivity.
Qed.

Lemma custom_timestamp_and_date_witness :
  (r_title req3 = Some "Broken link" /\ trim "Broken link" <> "" /\
   r_description req3 = Some "The page is empty" /\ trim "The page is empty" <> "" /\
   sheets_ok env3 = true) /\
  exists data w' row,
    post_feedback req3 env3 world0 = (Ok (Created data), w') /\
    sheet w' = sheet world0 ++ [row] /\ nth 6 row "" = s_id data /\
    (forall s, customTimestamp req3 = Some s -> s <> "" -> s_id data = s) /\
    ((customTimestamp req3 = None \/ customTimestamp req3 = Some "") ->
     s_id data = now_iso env3) /\
    (forall s, customDate req3 = Some s -> s <> "" -> nth 5 row "" = s) /\
    ((customDate req3 = None \/ customDate req3 = Some "") ->
     nth 5 row "" = now_ymd env3).
Proof.
  split.
  - repeat split; try reflexivity; vm_compute; discriminate.
  - apply (custom_timestamp_and_date env3 world0 req3 "Broken link"
             "The page is empty"); first [reflexivity | vm_compute; discriminate].
Defined.

End FeedbackClaims.

(* ================================================================= *)
(** * Further properties of the handlers *)

Module IconExtra.
Import JsObject Icons IconFacts.

Lemma find_activated (k : string) (now : nat) (reg : Registry) (t : IconRecord) :
  get_own k reg = Some t ->
  find (fun kv => isActive (snd kv))
       (update k (fun r => set_lastUpdated now (set_active true r)) (deactivate_all reg))
  = Some (k, set_lastUpdated now (set_active true (set_active false t))).
Proof.
  induction reg as [|[k' r] reg IH]; simpl; intros Ht; [discriminate|].
  destruct (String.eqb k k') eqn:E.
  - apply String.eqb_eq in E. subst k'. injection Ht as <-. reflexivity.
  - simpl. apply IH. exact Ht.
Qed.

Lemma keys_update {V} (k : string) (f : V -> V) (o : JsObject.t V) :
  keys (update k f o) = keys o.
Proof.
  induction o as [|[k' v] o IH]; simpl; auto.
  destruct (String.eqb k k'); simpl; f_equal; auto.
Qed.

Lemma keys_deactivate_all (reg : Registry) : keys (deactivate_all reg) = keys reg.
Proof. induction reg as [|[k r] reg IH]; simpl; f_equal; auto. Qed.

Lemma find_app_one {A} (p : A -> bool) (l : list A) (x : A) :
  find p (l ++ [x]) = match find p l with
                      | Some y => Some y
                      | None => if p x then Some x else None
                      end.
Proof.
  induction l as [|a l IH]; simpl; auto.
  destruct (p a); auto.
Qed.

Lemma find_some_of_count (reg : Registry) :
  count_active reg <> 0 -> find (fun kv => isActive (snd kv)) reg <> None.
Proof.
  unfold count_active. induction reg as [|[k r] reg IH]; simpl; intros H; [congruence|].
  destruct (isActive r); simpl in *; [discriminate|]. auto.
Qed.

(** After a successful activation of an entry [k], the current-icon
    endpoint answers [k], with the activation time as [lastUpdated]. *)
Theorem activate_then_current_icon (reg : Registry) (k host : string) (now : nat)
  (t : IconRecord) :
  k <> "" -> get_own k reg = Some t ->
  current_icon host (snd (activate k now reg)) =
  CurrentIcon k (name t) (host ++ url t) now.
Proof.
  intros Hk Ht. rewrite (activate_own k now reg t Hk Ht).
  unfold current_icon. rewrite (find_activated k now reg t Ht). reflexivity.
Qed.

Lemma activate_then_current_icon_witness :
  ("navratri3" <> "" /\
   get_own "navratri3" (activeIcons_init 0)
     = Some (mkIcon "Navratri 3" "/uploads/icons/navratri3.png" false 0)) /\
  current_icon "http://h" (snd (activate "navratri3" 9 (activeIcons_init 0))) =
  CurrentIcon "navratri3" "Navratri 3" ("http://h" ++ "/uploads/icons/navratri3.png") 9.
Proof.
  split; [split; [discriminate | reflexivity]|].
  apply (activate_then_current_icon (activeIcons_init 0) "navratri3" "http://h" 9
           (mkIcon "Navratri 3" "/uploads/icons/navratri3.png" false 0));
    [discriminate | reflexivity].
Defined.

(** A successful activation of an entry [k] keeps the registry's keys and
    their order, leaves exactly one entry active, and changes every other
    entry only by clearing its flag. *)
Theorem activate_only_flips_flags (reg : Registry) (k : string) (now : nat)
  (t : IconRecord) :
  k <> "" -> get_own k reg = Some t ->
  keys (snd (activate k now reg)) = keys reg /\
  count_active (snd (activate k now reg)) = 1 /\
  (forall j, j <> k ->
     get_own j (snd (activate k now reg)) = option_map (set_active false) (get_own j reg)).
Proof.
  intros Hk Ht. rewrite (activate_own k now reg t Hk Ht).
  split; [|split].
  - now rewrite keys_update, keys_deactivate_all.
  - apply count_active_update_one; [apply count_active_deactivate_all|].
    rewrite get_own_deactivate_all, Ht. discriminate.
  - intros j Hj. rewrite get_own_update_other by exact Hj.
    apply get_own_deactivate_all.
Qed.

Lemma activate_only_flips_flags_witness :
  ("DEFAULT" <> "" /\
   get_own "DEFAULT" (activeIcons_init 3)
     = Some (mkIcon "Default" "/uploads/icons/default.png" true 3)) /\
  keys (snd (activate "DEFAULT" 4 (activeIcons_init 3))) = keys (activeIcons_init 3) /\
  count_active (snd (activate "DEFAULT" 4 (activeIcons_init 3))) = 1 /\
  (forall j, j <> "DEFAULT" ->
     get_own j (snd (activate "DEFAULT" 4 (activeIcons_init 3)))
     = option_map (set_active false) (get_own j (activeIcons_init 3))).
Proof.
  split; [split; [discriminate | reflexivity]|].
  apply (activate_only_flips_flags (activeIcons_init 3) "DEFAULT" 4
           (mkIcon "Default" "/uploads/icons/default.png" true 3));
    [discriminate | reflexivity].
Defined.

(** A successful [add] appends the new icon, inactive, at the end of the
    admin listing and does not change the current icon.  This is about
    names that are not array indices (neither the new one nor those
    already present): [Object.keys] would list such names first. *)
Theorem add_appends_inactive (reg : Registry) (k d u host : string) (now : nat) :
  is_array_index k = false -> Forall (fun j => is_array_index j = false) (keys reg) ->
  k <> "" -> d <> "" -> u <> "" -> get k reg = Undefined ->
  fst (add k d u now reg) = AdminOk k (Some (d, u)) /\
  list_icons host (snd (add k d u now reg)) =
    list_icons host reg ++ [mkView k d (host ++ u) false now] /\
  current_icon host (snd (add k d u now reg)) = current_icon host reg.
Proof.
  intros _ _ Hk Hd Hu Hun. unfold add.
  apply String.eqb_neq in Hk, Hd, Hu. rewrite Hk, Hd, Hu, Hun. simpl.
  split; [reflexivity|]. split.
  - unfold list_icons. now rewrite map_app.
  - unfold current_icon. rewrite find_app_one. simpl.
    destruct (find _ reg); reflexivity.
Qed.

Lemma add_appends_inactive_witness :
  (is_array_index "navratri2" = false /\
   Forall (fun j => is_array_index j = false) (keys (activeIcons_init 0)) /\
   "navratri2" <> "" /\ "Navratri 2" <> "" /\ "/uploads/icons/navratri2.png" <> "" /\
   get "navratri2" (activeIcons_init 0) = Undefined) /\
  fst (add "navratri2" "Navratri 2" "/uploads/icons/navratri2.png" 5 (activeIcons_init 0))
    = AdminOk "navratri2" (Some ("Navratri 2", "/uploads/icons/navratri2.png")) /\
  list_icons "" (snd (add "navratri2" "Navratri 2" "/uploads/icons/navratri2.png" 5
                        (activeIcons_init 0))) =
    list_icons "" (activeIcons_init 0)
    ++ [mkView "navratri2" "Navratri 2" ("" ++ "/uploads/icons/navratri2.png") false 5] /\
  current_icon "" (snd (add "navratri2" "Navratri 2" "/uploads/icons/navratri2.png" 5
                          (activeIcons_init 0)))
    = current_icon "" (activeIcons_init 0).
Proof.
  split; [repeat split; try reflexivity; try discriminate; repeat constructor|].
  apply (add_appends_inactive (activeIcons_init 0) "navratri2" "Navratri 2"
           "/uploads/icons/navratri2.png" "" 5);
    first [reflexivity | discriminate | repeat constructor].
Defined.

(** [add] refuses every name inherited from [Object.prototype] as
    "already exists", whether or not the registry holds it, and leaves
    the registry unchanged. *)
Theorem add_rejects_prototype_names (reg : Registry) (k d u : string) (now : nat) :
  is_inherited k = true -> d <> "" -> u <> "" ->
  add k d u now reg = (AdminBadRequest ("Icon '" ++ k ++ "' already exists"), reg).
Proof.
  intros Hi Hd Hu. unfold add.
  assert (Hk : String.eqb k "" = false).
  { destruct (String.eqb k "") eqn:E; auto. apply String.eqb_eq in E. subst k. discriminate. }
  apply String.eqb_neq in Hd, Hu. rewrite Hk, Hd, Hu. simpl.
  unfold get. destruct (get_own k reg); [reflexivity|]. now rewrite Hi.
Qed.

Lemma add_rejects_prototype_names_witness :
  (is_inherited "toString" = true /\ "Evil" <> "" /\ "/evil.png" <> "") /\
  add "toString" "Evil" "/evil.png" 1 (activeIcons_init 0)
  = (AdminBadRequest ("Icon '" ++ "toString" ++ "' already exists"), activeIcons_init 0).
Proof.
  split; [repeat split; try reflexivity; discriminate|].
  apply add_rejects_prototype_names; first [reflexivity | discriminate].
Defined.

(** From the bootstrap table, as long as no activation names a member of
    [Object.prototype], exactly one icon is active and the current-icon
    endpoint never answers 404. *)
Theorem plain_requests_keep_current_icon (ops : list (AdminOp * nat)) (t0 : nat)
  (host : string) :
  Forall (fun p => plain_op (fst p) = true) ops ->
  count_active (run ops (activeIcons_init t0)) = 1 /\
  current_icon host (run ops (activeIcons_init t0)) <> NoActiveIcon.
Proof.
  intros Hall.
  assert (H1 : count_active (run ops (activeIcons_init t0)) = 1)
    by (apply run_plain_exactly_one; [exact Hall | reflexivity]).
  split; [exact H1|].
  unfold current_icon.
  assert (Hf := find_some_of_count (run ops (activeIcons_init t0))).
  destruct (find _ _) as [[k r]|]; [discriminate|].
  exfalso. apply Hf; [rewrite H1; discriminate | reflexivity].
Qed.

Lemma plain_requests_keep_current_icon_witness :
  Forall (fun p => plain_op (fst p) = true)
         [(OpAdd "diwali" "Diwali" "/d.png", 1); (OpActivate "diwali", 2);
          (OpActivate "missing", 3)] /\
  count_active (run [(OpAdd "diwali" "Diwali" "/d.png", 1); (OpActivate "diwali", 2);
                     (OpActivate "missing", 3)] (activeIcons_init 0)) = 1 /\
  current_icon "" (run [(OpAdd "diwali" "Diwali" "/d.png", 1); (OpActivate "diwali", 2);
                        (OpActivate "missing", 3)] (activeIcons_init 0)) <> NoActiveIcon.
Proof.
  split; [repeat constructor|].
  apply plain_requests_keep_current_icon. repeat constructor.
Defined.

Lemma set_active_idem (r : IconRecord) :
  set_active false (set_active false r) = set_active false r.
Proof. destruct r; reflexivity. Qed.

Lemma deactivate_all_idem (reg : Registry) :
  deactivate_all (deactivate_all reg) = deactivate_all reg.
Proof.
  induction reg as [|[k r] reg IH]; simpl; [reflexivity|].
  cbn in IH. now rewrite set_active_idem, IH.
Qed.

Lemma deactivate_all_update (k : string) (g : IconRecord -> IconRecord) (reg : Registry) :
  deactivate_all (update k g (deactivate_all reg)) =
  update k (fun r => set_active false (g r)) (deactivate_all reg).
Proof.
  induction reg as [|[k' r] reg IH]; simpl; [reflexivity|].
  destruct (String.eqb k k'); simpl.
  - f_equal. apply deactivate_all_idem.
  - rewrite set_active_idem. f_equal. exact IH.
Qed.

Lemma update_update {V} (k : string) (f g : V -> V) (o : JsObject.t V) :
  update k f (update k g o) = update k (fun v => f (g v)) o.
Proof.
  induction o as [|[k' v] o IH]; simpl; [reflexivity|].
  destruct (String.eqb k k') eqn:E; simpl; rewrite E; f_equal; auto.
Qed.

Lemma update_ext {V} (k : string) (f g : V -> V) (o : JsObject.t V) :
  (forall v, f v = g v) -> update k f o = update k g o.
Proof.
  intros H. induction o as [|[k' v] o IH]; simpl; [reflexivity|].
  destruct (String.eqb k k'); f_equal; auto. now rewrite H.
Qed.

Lemma activate_congr (k : string) (now : nat) (X Y : Registry) :
  k <> "" -> get_own k X <> None -> get_own k Y <> None ->
  update k (fun r => set_lastUpdated now (set_active true r)) (deactivate_all X) =
  update k (fun r => set_lastUpdated now (set_active true r)) (deactivate_all Y) ->
  activate k now X = activate k now Y.
Proof.
  intros Hk HX HY H. unfold activate, get.
  apply String.eqb_neq in Hk. rewrite Hk.
  rewrite !get_own_deactivate_all.
  destruct (get_own k X) eqn:EX; [|contradiction].
  destruct (get_own k Y) eqn:EY; [|contradiction].
  cbn [option_map negb truthy]. cbv zeta. rewrite H. reflexivity.
Qed.

(** Activating again the icon just activated is the same as activating
    it once, at the later time: the first activation leaves no trace,
    neither in the answer nor in the registry. *)
Theorem activate_twice (reg : Registry) (k : string) (t1 t2 : nat) (t : IconRecord) :
  k <> "" -> get_own k reg = Some t ->
  activate k t2 (snd (activate k t1 reg)) = activate k t2 reg.
Proof.
  intros Hk Ht. rewrite (activate_own k t1 reg t Hk Ht).
  apply activate_congr; [exact Hk| | |].
  - rewrite get_own_update_same, get_own_deactivate_all, Ht. discriminate.
  - rewrite Ht. discriminate.
  - rewrite deactivate_all_update, update_update.
    apply update_ext. intros [n u a l]. reflexivity.
Qed.

Lemma activate_twice_witness :
  ("navratri1" <> "" /\
   get_own "navratri1" (activeIcons_init 0)
     = Some (mkIcon "Navratri 1" "/uploads/icons/navratri1.png" false 0)) /\
  activate "navratri1" 8 (snd (activate "navratri1" 4 (activeIcons_init 0))) =
  activate "navratri1" 8 (activeIcons_init 0).
Proof.
  split; [split; [discriminate | reflexivity]|].
  apply (activate_twice (activeIcons_init 0) "navratri1" 4 8
           (mkIcon "Navratri 1" "/uploads/icons/navratri1.png" false 0));
    [discriminate | reflexivity].
Defined.

End IconExtra.

Module FeedbackExtra.
Import JsString Feedback FeedbackRead FeedbackFacts Scenarios.

(** The header bootstrap never fails start-up, and it writes nothing when
    the store is unreachable or the header range already holds a
    non-empty cell. *)
Theorem header_bootstrap_no_write (env : Env) (w : World) :
  sheets_ok env = false \/ values_get_header (sheet w) <> None ->
  fst (initializeSheetHeaders env w) = Ok tt /\
  sheet (snd (initializeSheetHeaders env w)) = sheet w /\
  header_writes (snd (initializeSheetHeaders env w)) = header_writes w.
Proof.
  intros H. destruct (sheets_ok env) eqn:Hok.
  - rewrite (initializeSheetHeaders_ok env w Hok). simpl.
    destruct (values_get_header (sheet w)) eqn:E; [auto|].
    destruct H as [H|H]; [discriminate | now contradiction H].
  - cbv [initializeSheetHeaders try_catch bind getGoogleSheetsInstance ask ret get put log
         throw].
    rewrite Hok. simpl. auto.
Qed.

Lemma header_bootstrap_no_write_witness :
  (sheets_ok env3 = false \/ values_get_header (sheet world0) <> None) /\
  fst (initializeSheetHeaders env3 world0) = Ok tt /\
  sheet (snd (initializeSheetHeaders env3 world0)) = sheet world0 /\
  header_writes (snd (initializeSheetHeaders env3 world0)) = header_writes world0.
Proof.
  split; [right; vm_compute; discriminate|].
  apply header_bootstrap_no_write. right; vm_compute; discriminate.
Defined.

Lemma drop_trailing_empty_rev_spec (l : list string) :
  exists k, l = repeat "" k ++ drop_trailing_empty_rev l.
Proof.
  induction l as [|a l [k IH]].
  - exists 0. reflexivity.
  - destruct a as [|c s].
    + exists (S k). simpl. now rewrite <- IH.
    + exists 0. reflexivity.
Qed.

Lemma trim_row_spec (r : list string) : exists k, r = trim_row r ++ repeat "" k.
Proof.
  destruct (drop_trailing_empty_rev_spec (rev r)) as [k Hk].
  exists k. unfold trim_row.
  remember (drop_trailing_empty_rev (rev r)) as D eqn:ED. clear ED.
  rewrite <- (rev_involutive r), Hk, rev_app_distr, rev_repeat.
  reflexivity.
Qed.

Lemma cell_app_repeat (a : list string) (k i : nat) :
  cell (a ++ repeat "" k) i = cell a i.
Proof.
  unfold cell. destruct (Nat.lt_ge_cases i (length a)) as [Hi|Hi].
  - now rewrite nth_error_app1.
  - rewrite nth_error_app2 by exact Hi.
    assert (Ha : nth_error a i = None) by now apply nth_error_None.
    rewrite Ha.
    destruct (nth_error (repeat "" k) (i - length a)) as [v|] eqn:E; [|reflexivity].
    apply nth_error_In, repeat_spec in E. now subst v.
Qed.

Lemma cell_trim_row (r : list string) (i : nat) : cell (trim_row r) i = cell r i.
Proof.
  destruct (trim_row_spec r) as [k Hk].
  rewrite Hk at 2. now rewrite cell_app_repeat.
Qed.

Lemma cell_read (r : list string) (i : nat) :
  (i < 7)%nat -> cell (trim_row (firstn 7 r)) i = cell r i.
Proof.
  intros Hi. rewrite cell_trim_row. unfold cell.
  rewrite nth_error_firstn. apply Nat.ltb_lt in Hi. now rewrite Hi.
Qed.

Lemma read_row_nonempty (r : list string) :
  hd "" r <> "" -> trim_row (firstn 7 r) <> [].
Proof.
  intros H E. assert (C := cell_read r 0 ltac:(lia)).
  rewrite E in C. destruct r as [|x r]; [now apply H|].
  unfold cell in C. simpl in H, C. unfold or_else in C.
  destruct (String.eqb x "") eqn:Ex; apply H.
  - now apply String.eqb_eq in Ex.
  - now rewrite <- C.
Qed.

Lemma drop_empty_rows_rev_keep (x : list string) (xs : list (list string)) :
  x <> [] -> drop_empty_rows_rev (x :: xs) = x :: xs.
Proof. destruct x; [congruence | reflexivity]. Qed.

Lemma values_get_AG_full (rows : list (list string)) :
  rows <> [] -> Forall (fun r => hd "" r <> "") rows ->
  values_get_AG rows = Some (map (fun r => trim_row (firstn 7 r)) rows).
Proof.
  intros Hne Hall. unfold values_get_AG.
  assert (Hf : Forall (fun x => x <> []) (rev (map (fun r => trim_row (firstn 7 r)) rows))).
  { apply Forall_rev, Forall_map.
    eapply Forall_impl; [|exact Hall]. intros r Hr. now apply read_row_nonempty. }
  destruct (rev (map (fun r => trim_row (firstn 7 r)) rows)) as [|x xs] eqn:E.
  - exfalso. apply Hne. apply (f_equal (@length _)) in E.
    rewrite length_rev, length_map in E. now destruct rows.
  - inversion Hf; subst. rewrite drop_empty_rows_rev_keep by assumption.
    rewrite <- E, rev_involutive.
    destruct (map _ rows) eqn:E2; [|reflexivity].
    destruct rows; [now contradiction Hne | discriminate E2].
Qed.

Lemma get_feedback_ok (env : Env) (w : World) :
  sheets_ok env = true ->
  get_feedback env w =
  (Ok (FeedbackList (length (rows_to_feedback (values_get_AG (sheet w))))
                    (rows_to_feedback (values_get_AG (sheet w)))), w).
Proof.
  intros Hok. cbv [get_feedback try_catch bind getGoogleSheetsInstance ask ret get].
  now rewrite Hok.
Qed.

Lemma assign_sheet_headers (r : list string) :
  assign_headers sheet_headers 0 r [] =
  [("title", cell r 0); ("description", cell r 1); ("photos", cell r 2);
   ("user_id", cell r 3); ("email_id", cell r 4); ("date", cell r 5);
   ("timestamp", cell r 6)].
Proof. reflexivity. Qed.

Lemma rows_to_feedback_headers (body : list (list string)) :
  rows_to_feedback (Some (map (fun r => trim_row (firstn 7 r)) (sheet_headers :: body))) =
  map (fun r => assign_headers sheet_headers 0 (trim_row (firstn 7 r)) []) body.
Proof. unfold rows_to_feedback. simpl. now rewrite map_map. Qed.

(** Round trip: on a table that starts with the header row and whose rows
    all have a non-empty title cell, a valid submission is read back by
    GET /api/feedback as one more record, after the earlier ones, carrying
    the submitted values under the normalised header keys. *)
Theorem post_then_get_feedback (env : Env) (w : World) (req : FeedbackReq) (t d : string)
  (body : list (list string)) :
  sheet w = sheet_headers :: body ->
  Forall (fun r => hd "" r <> "") body ->
  r_title req = Some t -> trim t <> "" ->
  r_description req = Some d -> trim d <> "" ->
  sheets_ok env = true ->
  fst (get_feedback env w) =
    Ok (FeedbackList (length body) (rows_to_feedback (values_get_AG (sheet w)))) /\
  fst (get_feedback env (snd (post_feedback req env w))) =
    Ok (FeedbackList (S (length body))
          (rows_to_feedback (values_get_AG (sheet w)) ++
           [[("title", trim t); ("description", trim d);
             ("photos", String.concat ", "
                          (map u_url (succeeded (attempt_all (cloud env) (upload_calls w)
                                                             (files req)))));
             ("user_id", trim_or_empty (r_userId req));
             ("email_id", trim_or_empty (r_emailId req));
             ("date", opt_or_else (customDate req) (now_ymd env));
             ("timestamp", opt_or_else (customTimestamp req) (now_iso env))]])).
Proof.
  intros Hs Hb Ht Htt Hd Hdt Hok.
  assert (Hhd : hd "" sheet_headers <> "") by discriminate.
  assert (Hold : values_get_AG (sheet w) =
                 Some (map (fun r => trim_row (firstn 7 r)) (sheet_headers :: body))).
  { rewrite Hs. apply values_get_AG_full; [discriminate | now constructor]. }
  rewrite !get_feedback_ok by exact Hok. simpl fst. rewrite Hold.
  rewrite (post_feedback_valid env w req t d Ht Htt Hd Hdt Hok). simpl snd.
  cbn [sheet]. rewrite Hs, <- app_comm_cons.
  rewrite values_get_AG_full.
  2: discriminate.
  2: { constructor; [exact Hhd|]. apply Forall_app. split; [exact Hb|].
       constructor; [|constructor]. simpl. unfold or_else.
       destruct (String.eqb (trim t) "") eqn:E; [|exact Htt].
       exfalso. apply Htt. now apply String.eqb_eq. }
  rewrite !rows_to_feedback_headers, map_app, length_app, !length_map.
  cbn [map length]. rewrite Nat.add_1_r. split; [reflexivity|].
  do 3 f_equal. rewrite assign_sheet_headers, !cell_read by lia.
  unfold cell. simpl. now rewrite !or_else_empty.
Qed.

Lemma post_then_get_feedback_witness :
  (sheet world0 = sheet_headers :: [] /\
   Forall (fun r => hd "" r <> "") ([] : list (list string)) /\
   r_title req3 = Some "Broken link" /\ trim "Broken link" <> "" /\
   r_description req3 = Some "The page is empty" /\ trim "The page is empty" <> "" /\
   sheets_ok env3 = true) /\
  fst (get_feedback env3 world0) =
    Ok (FeedbackList (length ([] : list (list string)))
                     (rows_to_feedback (values_get_AG (sheet world0)))) /\
  fst (get_feedback env3 (snd (post_feedback req3 env3 world0))) =
    Ok (FeedbackList (S (length ([] : list (list string))))
          (rows_to_feedback (values_get_AG (sheet world0)) ++
           [[("title", trim "Broken link"); ("description", trim "The page is empty");
             ("photos", String.concat ", "
                          (map u_url (succeeded (attempt_all (cloud env3)
                                                   (upload_calls world0) (files req3)))));
             ("user_id", trim_or_empty (r_userId req3));
             ("email_id", trim_or_empty (r_emailId req3));
             ("date", opt_or_else (customDate req3) (now_ymd env3));
             ("timestamp", opt_or_else (customTimestamp req3) (now_iso env3))]])).
Proof.
  split; [repeat split; try reflexivity; try constructor; vm_compute; discriminate|].
  apply (post_then_get_feedback env3 world0 req3 "Broken link" "The page is empty" []);
    first [reflexivity | constructor | vm_compute; discriminate].
Defined.

End FeedbackExtra.

Module UploadExtra.
Import JsString Upload.

Lemma lower_char_idem (c : ascii) : lower_char (lower_char c) = lower_char c.
Proof. destruct c as [[] [] [] [] [] [] [] []]; reflexivity. Qed.

Lemma lower_char_slash (c : ascii) : Ascii.eqb (lower_char c) "/" = Ascii.eqb c "/".
Proof. destruct c as [[] [] [] [] [] [] [] []]; reflexivity. Qed.

Lemma lower_char_dot (c : ascii) : Ascii.eqb (lower_char c) "." = Ascii.eqb c ".".
Proof. destruct c as [[] [] [] [] [] [] [] []]; reflexivity. Qed.

Lemma is_ws_lower (c : ascii) : is_ws (lower_char c) = is_ws c.
Proof. destruct c as [[] [] [] [] [] [] [] []]; reflexivity. Qed.

Lemma list_ascii_toLowerCase (s : string) :
  list_ascii_of_string (toLowerCase s) = map lower_char (list_ascii_of_string s).
Proof. induction s as [|c s IH]; simpl; f_equal; auto. Qed.

Lemma code_at_lower (l : list ascii) (i : nat) :
  code_at (map lower_char l) i = lower_char (code_at l i).
Proof.
  unfold code_at. change zero with (lower_char zero) at 1. apply map_nth.
Qed.

Lemma ext_scan_lower (n : nat) (l : list ascii) (st : ExtScan) :
  ext_scan n (map lower_char l) st = ext_scan n l st.
Proof.
  revert st. induction n as [|i IH]; intros st; [reflexivity|].
  cbn [ext_scan]. rewrite code_at_lower, lower_char_slash, lower_char_dot.
  destruct (Ascii.eqb (code_at l i) "/"); [destruct (matchedSlash st); auto|].
  apply IH.
Qed.

Lemma substring_lower (n m : nat) (s : string) :
  substring n m (toLowerCase s) = toLowerCase (substring n m s).
Proof.
  revert n m. induction s as [|c s IH]; intros [|n] [|m]; simpl; try rewrite IH; reflexivity.
Qed.

Lemma toLowerCase_idem (s : string) : toLowerCase (toLowerCase s) = toLowerCase s.
Proof. induction s as [|c s IH]; simpl; [reflexivity|]. now rewrite lower_char_idem, IH. Qed.

Lemma extname_lower (s : string) : extname (toLowerCase s) = toLowerCase (extname s).
Proof.
  unfold extname. cbv zeta.
  rewrite list_ascii_toLowerCase, length_map, ext_scan_lower.
  destruct (ext_scan _ _ scan_init) as [[sd|] sp [e|] ms [| |]];
    cbn [startDot end_ preDotState startPart];
    try reflexivity; try apply substring_lower.
  destruct (Nat.eqb (S sd) e && Nat.eqb sd (S sp)); [reflexivity | apply substring_lower].
Qed.

Lemma file_ext_lower (s : string) : file_ext (toLowerCase s) = file_ext s.
Proof. unfold file_ext. now rewrite extname_lower, toLowerCase_idem. Qed.

(** The upload filter ignores the case of an ASCII file name: the name
    and its lower-case form are accepted or rejected alike, with the
    same message. *)
Theorem fileFilter_case_insensitive (allowedTypes : list string) (originalname : string) :
  ascii_text originalname = true ->
  fileFilter allowedTypes (toLowerCase originalname) = fileFilter allowedTypes originalname.
Proof. intros _. unfold fileFilter. now rewrite file_ext_lower. Qed.

Lemma fileFilter_case_insensitive_witness :
  ascii_text "Holiday.JPG" = true /\
  fileFilter default_types (toLowerCase "Holiday.JPG") = fileFilter default_types "Holiday.JPG".
Proof.
  split; [reflexivity|].
  apply fileFilter_case_insensitive. reflexivity.
Defined.

Lemma append_empty_r (s : string) : (s ++ "")%string = s.
Proof. induction s as [|c s IH]; simpl; [reflexivity|]. now rewrite IH. Qed.

Lemma split_comma_nonnil (s : string) : split_comma s <> [].
Proof.
  induction s as [|c s IH]; simpl; [discriminate|].
  destruct (Ascii.eqb c ","); [discriminate|].
  destruct (split_comma s); discriminate.
Qed.

Lemma split_comma_app (t s : string) :
  ~ In ","%char (list_ascii_of_string t) ->
  split_comma (t ++ s) =
  match split_comma s with x :: xs => (t ++ x)%string :: xs | [] => [t] end.
Proof.
  intros Ht. induction t as [|c t IH]; simpl.
  - destruct (split_comma s) eqn:E; [now contradiction (split_comma_nonnil s)|reflexivity].
  - simpl in Ht.
    destruct (Ascii.eqb c ",") eqn:Ec.
    { apply Ascii.eqb_eq in Ec. exfalso. apply Ht. now left. }
    rewrite IH by (intros H; apply Ht; now right).
    destruct (split_comma s); reflexivity.
Qed.

Lemma split_comma_join (types : list string) :
  types <> [] ->
  Forall (fun t => ~ In ","%char (list_ascii_of_string t)) types ->
  split_comma (String.concat "," types) = types.
Proof.
  induction types as [|t ts IH]; intros Hne Hall; [contradiction|].
  inversion Hall as [|? ? Ht Hts]; subst.
  destruct ts as [|t2 ts'].
  - simpl. rewrite <- (append_empty_r t) at 1. rewrite split_comma_app by exact Ht.
    simpl. now rewrite append_empty_r.
  - change (String.concat "," (t :: t2 :: ts')) with
      (t ++ String "," (String.concat "," (t2 :: ts')))%string.
    rewrite split_comma_app by exact Ht. simpl Ascii.eqb.
    cbn [split_comma Ascii.eqb]. rewrite IH by (discriminate || exact Hts).
    simpl. now rewrite append_empty_r.
Qed.

(** [ALLOWED_FILE_TYPES] round trip: set to the comma-join of a non-empty
    list of types without commas, it yields exactly that list, and the
    filter accepts a file exactly when its extension is one of those
    types, compared verbatim (a space after a comma stays in the type). *)
Theorem allowed_types_join_split (types : list string) (originalname : string) :
  types <> [] ->
  Forall (fun t => ~ In ","%char (list_ascii_of_string t)) types ->
  allowed_types (Some (String.concat "," types)) = types /\
  (fileFilter (allowed_types (Some (String.concat "," types))) originalname = Accept <->
   In (file_ext originalname) types).
Proof.
  intros Hne Hall. unfold allowed_types. rewrite (split_comma_join types Hne Hall).
  split; [reflexivity|]. unfold fileFilter.
  split.
  - intros H. destruct (existsb _ types) eqn:E; [|discriminate].
    apply existsb_exists in E as [x [Hx Ex]]. apply String.eqb_eq in Ex. now subst x.
  - intros H. replace (existsb (String.eqb (file_ext originalname)) types) with true;
      [reflexivity|].
    symmetry. apply existsb_exists. exists (file_ext originalname).
    split; [exact H | apply String.eqb_refl].
Qed.

Lemma allowed_types_join_split_witness :
  (["jpg"; " png"] <> [] /\
   Forall (fun t => ~ In ","%char (list_ascii_of_string t)) ["jpg"; " png"]) /\
  allowed_types (Some (String.concat "," ["jpg"; " png"])) = ["jpg"; " png"] /\
  (fileFilter (allowed_types (Some (String.concat "," ["jpg"; " png"]))) "a.png" = Accept <->
   In (file_ext "a.png") ["jpg"; " png"]).
Proof.
  assert (H : Forall (fun t => ~ In ","%char (list_ascii_of_string t)) ["jpg"; " png"]).
  { repeat constructor; simpl; intros E; repeat destruct E as [E|E]; try discriminate E;
      exact E. }
  split; [split; [discriminate | exact H]|].
  apply allowed_types_join_split; [discriminate | exact H].
Defined.

Lemma ext_scan_no_dot (n : nat) (l : list ascii) (st : ExtScan) :
  (forall i, (i < n)%nat -> code_at l i <> "."%char) ->
  startDot (ext_scan n l st) = startDot st.
Proof.
  revert st. induction n as [|i IH]; intros st H; [reflexivity|].
  cbn [ext_scan].
  assert (Hi : (forall j, (j < i)%nat -> code_at l j <> "."%char)) by (intros j Hj; apply H; lia).
  assert (Hd : Ascii.eqb (code_at l i) "." = false).
  { destruct (Ascii.eqb (code_at l i) ".") eqn:E; [|reflexivity].
    apply Ascii.eqb_eq in E. exfalso. apply (H i); [lia | exact E]. }
  destruct (Ascii.eqb (code_at l i) "/").
  - destruct (matchedSlash st); [now apply IH | reflexivity].
  - rewrite Hd, IH by exact Hi.
    destruct st as [[sd|] sp [e|] ms pd]; reflexivity.
Qed.

Lemma extname_no_dot (path : string) :
  ~ In "."%char (list_ascii_of_string path) -> extname path = "".
Proof.
  intros H. unfold extname. cbv zeta.
  rewrite ext_scan_no_dot; [reflexivity|].
  intros i Hi E. apply H. rewrite <- E. unfold code_at. now apply nth_In.
Qed.

(** Under the default list, a file whose name contains no dot has no
    extension and is rejected. *)
Theorem no_dot_rejected (originalname : string) :
  ~ In "."%char (list_ascii_of_string originalname) ->
  fileFilter (allowed_types None) originalname =
  Reject "File type  is not allowed. Allowed types: jpg, jpeg, png, gif, webp".
Proof.
  intros H. unfold fileFilter, file_ext. rewrite (extname_no_dot originalname H).
  reflexivity.
Qed.

Lemma no_dot_rejected_witness :
  ~ In "."%char (list_ascii_of_string "photo") /\
  fileFilter (allowed_types None) "photo" =
  Reject "File type  is not allowed. Allowed types: jpg, jpeg, png, gif, webp".
Proof.
  assert (H : ~ In "."%char (list_ascii_of_string "photo")).
  { simpl. intros [E|[E|[E|[E|[E|[]]]]]]; discriminate E. }
  split; [exact H | apply no_dot_rejected; exact H].
Defined.

(** Every rejection of the upload filter, handed to the error middleware,
    answers 400 "Invalid file type" with the filter's message. *)
Theorem fileFilter_reject_handled (allowedTypes : list string) (originalname message : string)
  (max_mb : string) :
  fileFilter allowedTypes originalname = Reject message ->
  error_middleware max_mb (PlainError message) = mkMwResp 400 "Invalid file type" message.
Proof.
  intros H. unfold fileFilter in H.
  destruct (existsb _ _); [discriminate|]. injection H as <-.
  reflexivity.
Qed.

Lemma fileFilter_reject_handled_witness :
  fileFilter default_types "setup.EXE" =
    Reject "File type exe is not allowed. Allowed types: jpg, jpeg, png, gif, webp" /\
  error_middleware "10"
    (PlainError "File type exe is not allowed. Allowed types: jpg, jpeg, png, gif, webp") =
  mkMwResp 400 "Invalid file type"
    "File type exe is not allowed. Allowed types: jpg, jpeg, png, gif, webp".
Proof.
  split; [vm_compute; reflexivity|].
  apply (fileFilter_reject_handled default_types "setup.EXE"); vm_compute; reflexivity.
Defined.

End UploadExtra.

Module HeaderExtra.
Import JsString Feedback FeedbackRead UploadExtra.

Lemma toLowerCase_chars (s : string) :
  Forall (fun c => lower_char c = c) (list_ascii_of_string (toLowerCase s)).
Proof.
  induction s as [|c s IH]; simpl; constructor; auto. apply lower_char_idem.
Qed.

Lemma replace_ws_runs_chars (s : string) (in_run : bool) :
  Forall (fun c => lower_char c = c) (list_ascii_of_string s) ->
  Forall (fun c => is_ws c = false /\ lower_char c = c)
         (list_ascii_of_string (replace_ws_runs s in_run)).
Proof.
  revert in_run. induction s as [|c s IH]; intros in_run H; simpl; [constructor|].
  inversion H as [|? ? Hc Hs]; subst.
  destruct (is_ws c) eqn:E.
  - destruct in_run; simpl; auto.
  - simpl. constructor; auto.
Qed.

Lemma replace_ws_runs_id (s : string) (in_run : bool) :
  Forall (fun c => is_ws c = false) (list_ascii_of_string s) -> replace_ws_runs s in_run = s.
Proof.
  revert in_run. induction s as [|c s IH]; intros in_run H; simpl; [reflexivity|].
  inversion H as [|? ? Hc Hs]; subst. rewrite Hc. f_equal. auto.
Qed.

Lemma toLowerCase_id (s : string) :
  Forall (fun c => lower_char c = c) (list_ascii_of_string s) -> toLowerCase s = s.
Proof.
  induction s as [|c s IH]; intros H; simpl; [reflexivity|].
  inversion H as [|? ? Hc Hs]; subst. rewrite Hc. f_equal. auto.
Qed.

(** The key GET /api/feedback derives from an ASCII header holds no
    whitespace and no upper-case letter, does not depend on the header's
    case, and is its own key. *)
Theorem header_key_normal_form (header : string) :
  ascii_text header = true ->
  Forall (fun c => is_ws c = false /\ lower_char c = c)
         (list_ascii_of_string (header_key header)) /\
  header_key (toLowerCase header) = header_key header /\
  header_key (header_key header) = header_key header.
Proof.
  intros _.
  assert (H : Forall (fun c => is_ws c = false /\ lower_char c = c)
                     (list_ascii_of_string (header_key header)))
    by (apply replace_ws_runs_chars, toLowerCase_chars).
  split; [exact H|]. split.
  - unfold header_key. now rewrite toLowerCase_idem.
  - unfold header_key at 1.
    rewrite toLowerCase_id by (eapply Forall_impl; [|exact H]; intros c [_ Hc]; exact Hc).
    apply replace_ws_runs_id. eapply Forall_impl; [|exact H]. intros c [Hc _]. exact Hc.
Qed.

Lemma header_key_normal_form_witness :
  ascii_text "Email  ID" = true /\
  Forall (fun c => is_ws c = false /\ lower_char c = c)
         (list_ascii_of_string (header_key "Email  ID")) /\
  header_key (toLowerCase "Email  ID") = header_key "Email  ID" /\
  header_key (header_key "Email  ID") = header_key "Email  ID".
Proof.
  split; [reflexivity|].
  apply header_key_normal_form. reflexivity.
Defined.

End HeaderExtra.

Module ConfigExtra.
Import Upload Config.

Lemma var_ok_truthy (v : option string) : var_ok v = true -> truthy_str v = true.
Proof.
  destruct v as [s|]; simpl; [|discriminate].
  intros H. apply andb_prop in H as [H _]. exact H.
Qed.

(** A configuration the check script accepts is one the health endpoint
    reports as having Cloudinary configured. *)
Theorem configValid_health_configured (cfg : ConfigEnv) (cred : CredFile) :
  configValid cfg cred = true ->
  health_cloudinary_configured (CLOUDINARY_CLOUD_NAME cfg) (CLOUDINARY_API_KEY cfg) = true.
Proof.
  unfold configValid. simpl forallb.
  intros H. apply andb_prop in H as [H _]. apply andb_prop in H as [_ H].
  apply andb_prop in H as [Hn H]. apply andb_prop in H as [Hk _].
  unfold health_cloudinary_configured.
  now rewrite (var_ok_truthy _ Hn), (var_ok_truthy _ Hk).
Qed.

Lemma configValid_health_configured_witness :
  configValid (mkConfigEnv (Some "sheet") (Some "demo") (Some "123") (Some "secret"))
              (ParsedCreds (Some "svc@x") (Some "key") (Some "proj")) = true /\
  health_cloudinary_configured (Some "demo") (Some "123") = true.
Proof.
  split; [reflexivity|].
  apply (configValid_health_configured
           (mkConfigEnv (Some "sheet") (Some "demo") (Some "123") (Some "secret"))
           (ParsedCreds (Some "svc@x") (Some "key") (Some "proj"))).
  reflexivity.
Defined.

(** The two checks disagree on placeholders: a cloud name still holding
    [your_] fails the check script, while the health endpoint reports
    Cloudinary as configured as soon as an API key is set. *)
Theorem placeholder_cloud_name_disagreement (cfg : ConfigEnv) (cred : CredFile) (s : string) :
  CLOUDINARY_CLOUD_NAME cfg = Some s -> includes "your_" s = true ->
  truthy_str (CLOUDINARY_API_KEY cfg) = true ->
  configValid cfg cred = false /\
  health_cloudinary_configured (CLOUDINARY_CLOUD_NAME cfg) (CLOUDINARY_API_KEY cfg) = true.
Proof.
  intros Hn Hi Hk.
  destruct s as [|c s']; [discriminate Hi|].
  split.
  - assert (Hv : var_ok (Some (String c s')) = false)
      by (unfold var_ok; rewrite Hi; apply andb_false_r).
    unfold configValid. rewrite Hn. cbn [forallb]. rewrite Hv. cbn [andb].
    now rewrite andb_false_r.
  - unfold health_cloudinary_configured. now rewrite Hn, Hk.
Qed.

Lemma placeholder_cloud_name_disagreement_witness :
  (CLOUDINARY_CLOUD_NAME (mkConfigEnv (Some "sheet") (Some "your_cloud_name") (Some "123")
                                       (Some "secret")) = Some "your_cloud_name" /\
   includes "your_" "your_cloud_name" = true /\
   truthy_str (CLOUDINARY_API_KEY (mkConfigEnv (Some "sheet") (Some "your_cloud_name")
                                                (Some "123") (Some "secret"))) = true) /\
  configValid (mkConfigEnv (Some "sheet") (Some "your_cloud_name") (Some "123") (Some "secret"))
              NoCredFile = false /\
  health_cloudinary_configured
    (CLOUDINARY_CLOUD_NAME (mkConfigEnv (Some "sheet") (Some "your_cloud_name") (Some "123")
                                         (Some "secret")))
    (CLOUDINARY_API_KEY (mkConfigEnv (Some "sheet") (Some "your_cloud_name") (Some "123")
                                      (Some "secret"))) = true.
Proof.
  split; [repeat split; reflexivity|].
  apply (placeholder_cloud_name_disagreement _ NoCredFile "your_cloud_name"); reflexivity.
Defined.

End ConfigExtra.
